(** * Request/reply over Pub/Sub: a shallow embedding of the watermill fork

    The development embeds three Go sources:
    - [components/cqrs/event_processor_group.go], the Pub/Sub backed
      request/reply backend ([PubSubRequestReply]): [ListenForReply] and its
      background listener, [handleNotifyMsg], [OnCommandProcessed] and
      [ModifyCommandMessageBeforePublish];
    - [components/requestreply/command_bus.go]: [SendWithReply];
    - the request/reply command handlers: [NewCommandHandler],
      [NewCommandHandlerWithResult] and [originalCommandMsgFromCtx].

    Calls to collaborators (publisher, subscriber, marshaler, logger, command
    bus, backend) are functions of the configuration whose results are
    arbitrary; every call is recorded, in program order, in a trace of
    effects.  The listener goroutine is a step function over what its
    [select] statement and the reader of the reply channel can do next. *)

From stdpp Require Import base option list gmap strings pretty.
From Stdlib Require Import ZArith Lia.

Local Open Scope Z_scope.

(** ** Go values used by the sources *)

Module errors.

(** The values of Go's [error] interface that the sources build or receive:
    [errors.New]/[fmt.Errorf] strings, [errors.Wrap] and the two context
    errors.  The only observation the code makes on an error is
    [Error()]. *)
Inductive error : Type :=
| errorString (s : string)
| withMessage (cause : error) (msg : string)
| Canceled
| DeadlineExceeded.

Fixpoint Error (e : error) : string :=
  match e with
  | errorString s => s
  | withMessage cause msg => msg +:+ ": " +:+ Error cause
  | Canceled => "context canceled"
  | DeadlineExceeded => "context deadline exceeded"
  end.

Definition New (text : string) : error := errorString text.

(** [errors.Wrap] on a non-nil error. *)
Definition Wrap (err : error) (message : string) : error :=
  withMessage err message.

End errors.

Module time.

(** Instants and durations in nanoseconds; a [Duration] is an int64 and
    [Time.Sub] saturates at its bounds. *)
Definition Time := Z.
Definition Duration := Z.

Definition maxDuration : Duration := 2 ^ 63 - 1.
Definition minDuration : Duration := - 2 ^ 63.

Definition Sub (t u : Time) : Duration :=
  if t - u <? minDuration then minDuration
  else if maxDuration <? t - u then maxDuration
  else t - u.

(** [time.Since(start)] evaluated when the clock reads [now]. *)
Definition Since (now start : Time) : Duration := Sub now start.

End time.

Module message.

(** [message.Metadata] is a [map[string]string]; [Get] of a missing key is
    the empty string. *)
Definition Get (m : gmap string string) (key : string) : string :=
  default "" (m !! key).

Definition Set_ (m : gmap string string) (key value : string) : gmap string string :=
  <[key := value]> m.

(** [message.Message]: the context it carries is an opaque token. *)
Record Message : Type := {
  UUID : string;
  Metadata : gmap string string;
  Payload : list Byte.byte;
  Context_ : nat;
}.

Definition SetMetadata (msg : Message) (key value : string) : Message :=
  {| UUID := UUID msg; Metadata := Set_ (Metadata msg) key value;
     Payload := Payload msg; Context_ := Context_ msg |}.

Definition SetContext (msg : Message) (ctx : nat) : Message :=
  {| UUID := UUID msg; Metadata := Metadata msg;
     Payload := Payload msg; Context_ := ctx |}.

End message.

(** ** Computations that record their effects *)

Module effects.

(** A computation returns a value and the effects it performed, in
    program order. *)
Definition M (E A : Type) : Type := A * list E.

Definition ret {E A} (a : A) : M E A := (a, []).

Definition bind {E A B} (m : M E A) (k : A -> M E B) : M E B :=
  let '(a, t1) := m in let '(b, t2) := k a in (b, t1 ++ t2).

Definition emit {E} (e : E) : M E unit := (tt, [e]).

#[global] Instance M_ret E : MRet (M E) := fun A => @ret E A.
#[global] Instance M_bind E : MBind (M E) := fun A B k m => bind m k.

End effects.

(** ** components/cqrs: the Pub/Sub request/reply backend *)

Module cqrs.
Import errors message effects.

Section Backend.

(** The type of commands ([any] in the source). *)
Context {Command : Type}.

(** The notification message, with the two fields the sources read and
    write. *)
Record RequestReplyNotification : Type := {
  Error : string;
  HasError : bool;
}.

Record PubSubRequestReplyMarshaler : Type := {
  Marshal : RequestReplyNotification -> Message + error;
  Unmarshal : Message -> RequestReplyNotification + error;
}.

Record PubSubRequestReplySubscriberConstructorParams : Type := {
  sc_CommandUUID : string;
  sc_CommandMessage : Message;
  sc_Command : Command;
}.

Record PubSubRequestReplyTopicGeneratorParams : Type := {
  tg_CommandUUID : string;
  tg_CommandMessage : Message;
  tg_Command : Command;
}.

(** [message.Subscriber]: [Subscribe] either hands out the channel of
    notifications or fails.  What arrives on the channel is decided by
    the events the listener is run on. *)
Record Subscriber : Type := {
  Subscribe : string -> option error;
}.

Record PubSubRequestReplyConfig : Type := {
  Publisher : string -> Message -> option error;
  SubscriberConstructor :
    PubSubRequestReplySubscriberConstructorParams -> Subscriber + error;
  GenerateReplyNotificationTopic :
    PubSubRequestReplyTopicGeneratorParams -> string + error;
  Marshaler : PubSubRequestReplyMarshaler;
  ListenForReplyTimeout : option time.Duration;
  ModifyNotificationMessage :
    option (Message -> option error -> Message * option error);
}.

Record PubSubRequestReply : Type := { config : PubSubRequestReplyConfig }.

(** The two error structs the listener stores in [CommandReply.Err]. *)
Inductive ReplyError : Type :=
| ReplyTimeoutError (Duration : time.Duration) (Err : error)
| CommandHandlerError (Err : error).

Record CommandReply : Type := {
  ReplyMsg : option Message;
  Err : option ReplyError;
}.

(** Everything the backend does to the outside, in program order. *)
Inductive Effect : Type :=
| LogDebug (msg : string)
| Ack (msg : Message)
| CallMarshal (v : RequestReplyNotification)
| CallUnmarshal (msg : Message)
| CallModifyNotificationMessage (msg : Message) (handleErr : option error)
| CallGenerateReplyNotificationTopic (params : PubSubRequestReplyTopicGeneratorParams)
| CallPublish (topic : string) (msg : Message)
| CallSubscriberConstructor (params : PubSubRequestReplySubscriberConstructorParams)
| CallSubscribe (topic : string)
| WithTimeout (d : time.Duration)
| WithCancel
| Cancel
| MakeChan (capacity : nat)
| Go
| ChanSend (reply : CommandReply)
| ChanClose.

Definition notifyWhenExecutedMetadataKey : string :=
  "_watermill_notify_when_executed".

Definition handledCommandUuidMetadataKey : string :=
  "_watermill_command_message_uuid".

Definition ModifyCommandMessageBeforePublish
    (p : PubSubRequestReply) (cmdMsg : Message) (command : Command)
  : Message * option error :=
  (SetMetadata cmdMsg notifyWhenExecutedMetadataKey "1", None).

(** [handleNotifyMsg]; the deferred [msg.Ack()] runs last on every path. *)
Definition handleNotifyMsg
    (p : PubSubRequestReply) (msg : Message) (expectedCommandUuid : string)
  : M Effect (bool * option error) :=
  r ← (if decide (Get (Metadata msg) handledCommandUuidMetadataKey = expectedCommandUuid)
        then
          emit (CallUnmarshal msg) ;;
          match Unmarshal (Marshaler (config p)) msg with
          | inr err =>
              ret (false, Some (Wrap err "cannot unmarshal request reply notification"))
          | inl notification =>
              if HasError notification
              then ret (true, Some (New (Error notification)))
              else ret (true, None)
          end
        else
          emit (LogDebug "Received notify message with different command UUID") ;;
          ret (false, None)) ;
  emit (Ack msg) ;;
  ret r.

Definition OnCommandProcessed
    (p : PubSubRequestReply) (cmdMsg : Message) (cmd : Command)
    (handleErr : option error)
  : M Effect (option error) :=
  if decide (Get (Metadata cmdMsg) notifyWhenExecutedMetadataKey = "1")
  then
    emit (LogDebug "Sending request reply") ;;
    let notification :=
      match handleErr with
      | Some e => {| Error := errors.Error e; HasError := true |}
      | None => {| Error := ""; HasError := false |}
      end in
    emit (CallMarshal notification) ;;
    match Marshal (Marshaler (config p)) notification with
    | inr err => ret (Some (Wrap err "cannot marshal request reply notification"))
    | inl notificationMsg =>
        let notificationMsg := SetContext notificationMsg (Context_ cmdMsg) in
        let notificationMsg :=
          SetMetadata notificationMsg handledCommandUuidMetadataKey (UUID cmdMsg) in
        modified ←
          match ModifyNotificationMessage (config p) with
          | Some modify =>
              emit (CallModifyNotificationMessage notificationMsg handleErr) ;;
              match modify notificationMsg handleErr with
              | (_, Some err) => ret (inr (Wrap err "cannot modify notification message"))
              | (msg', None) => ret (inl msg')
              end
          | None => ret (inl notificationMsg)
          end ;
        match modified with
        | inr err => ret (Some err)
        | inl notificationMsg =>
            let params :=
              {| tg_CommandUUID := UUID cmdMsg; tg_CommandMessage := cmdMsg;
                 tg_Command := cmd |} in
            emit (CallGenerateReplyNotificationTopic params) ;;
            match GenerateReplyNotificationTopic (config p) params with
            | inr err => ret (Some (Wrap err "cannot generate request/reply notify topic"))
            | inl replyTopic =>
                emit (CallPublish replyTopic notificationMsg) ;;
                match Publisher (config p) replyTopic notificationMsg with
                | Some err => ret (Some (Wrap err "cannot publish command executed message"))
                | None => ret None
                end
            end
        end
    end
  else
    emit (LogDebug ("RequestReply is enabled, but " +:+ notifyWhenExecutedMetadataKey
                    +:+ " is missing")) ;;
    ret None.

(** *** The listener started by [ListenForReply]

    [replyChan := make(chan CommandReply, 1)].  The goroutine is either
    waiting in its [select], blocked in a send on a full [replyChan], or
    has returned.  [next] is the statement that follows a send in the
    source: [continue] after a reply built from a notification, [return]
    after a timeout reply. *)
Definition replyChanCapacity : nat := 1.

Inductive Next : Type := Continue | Return.

Inductive Goroutine : Type :=
| AtSelect
| AtSend (reply : CommandReply) (next : Next)
| Returned.

Record Listener : Type := {
  goroutine : Goroutine;
  buffer : list CommandReply;    (* content of replyChan, oldest first *)
  closed : bool;                 (* close(replyChan) has run *)
  trace : list Effect;           (* effects of the goroutine so far *)
  received : list CommandReply;  (* replies taken out by the reader *)
}.

(** What can happen next: one of the two [select] cases fires, or the
    reader of [replyChan] receives.  [now] is the clock reading used by
    [time.Since(start)], [err] the value of [ctx.Err()]. *)
Inductive SelectCase : Type :=
| CtxDone (now : time.Time) (err : error)
| NotifyMsg (notifyMsg : Message)
| NotifyClosed (now : time.Time).

Inductive Event : Type :=
| Select (c : SelectCase)
| Receive.

Definition set_goroutine (g : Goroutine) (l : Listener) : Listener :=
  {| goroutine := g; buffer := buffer l; closed := closed l;
     trace := trace l; received := received l |}.

Definition add_trace (es : list Effect) (l : Listener) : Listener :=
  {| goroutine := goroutine l; buffer := buffer l; closed := closed l;
     trace := trace l ++ es; received := received l |}.

(** The goroutine goes on after a completed send.  On [return] the
    deferred calls run in reverse order: [cancel()], then
    [close(replyChan)]. *)
Definition resume (next : Next) (l : Listener) : Listener :=
  match next with
  | Continue => set_goroutine AtSelect l
  | Return =>
      {| goroutine := Returned; buffer := buffer l; closed := true;
         trace := trace l ++ [Cancel; ChanClose]; received := received l |}
  end.

(** [replyChan <- reply]: completes at once when the buffer has room,
    blocks otherwise. *)
Definition send (reply : CommandReply) (next : Next) (l : Listener) : Listener :=
  if (length (buffer l) <? replyChanCapacity)%nat
  then
    resume next
      {| goroutine := goroutine l; buffer := buffer l ++ [reply];
         closed := closed l; trace := trace l ++ [ChanSend reply];
         received := received l |}
  else set_goroutine (AtSend reply next) l.

(** One iteration of [for { select { ... } }]. *)
Definition select (p : PubSubRequestReply) (start : time.Time)
    (cmdMsg : Message) (c : SelectCase) (l : Listener) : Listener :=
  match c with
  | CtxDone now err =>
      send {| ReplyMsg := None;
              Err := Some (ReplyTimeoutError (time.Since now start) err) |}
           Return l
  | NotifyClosed now =>
      send {| ReplyMsg := None;
              Err := Some (ReplyTimeoutError (time.Since now start)
                             (errorString "subscriber closed")) |}
           Return l
  | NotifyMsg notifyMsg =>
      let '((ok, handlerErr), effects) := handleNotifyMsg p notifyMsg (UUID cmdMsg) in
      let l := add_trace effects l in
      if ok then
        send {| ReplyMsg := Some notifyMsg;
                Err := CommandHandlerError <$> handlerErr |}
             Continue l
      else l
  end.

(** The reader receives from [replyChan].  A blocked send of the goroutine
    completes as soon as the buffer has room.  Receiving from an empty
    channel blocks unless the channel is closed. *)
Definition receive (l : Listener) : option Listener :=
  match buffer l with
  | reply :: rest =>
      let l' := {| goroutine := goroutine l; buffer := rest; closed := closed l;
                   trace := trace l; received := received l ++ [reply] |} in
      Some match goroutine l with
           | AtSend pending next => send pending next l'
           | _ => l'
           end
  | [] => if closed l then Some l else None
  end.

(** An event that cannot happen in the current state gives [None]. *)
Definition step (p : PubSubRequestReply) (start : time.Time)
    (cmdMsg : Message) (l : Listener) (ev : Event) : option Listener :=
  match ev with
  | Receive => receive l
  | Select c =>
      match goroutine l with
      | AtSelect => Some (select p start cmdMsg c l)
      | _ => None
      end
  end.

Fixpoint run (p : PubSubRequestReply) (start : time.Time)
    (cmdMsg : Message) (l : Listener) (evs : list Event) : option Listener :=
  match evs with
  | [] => Some l
  | ev :: evs' =>
      match step p start cmdMsg l ev with
      | Some l' => run p start cmdMsg l' evs'
      | None => None
      end
  end.

(** The goroutine as [go func() { ... }()] starts it. *)
Definition spawned : Listener :=
  {| goroutine := AtSelect; buffer := []; closed := false;
     trace := []; received := [] |}.

(** [ListenForReply].  [start] is the reading of [time.Now()]; the
    context is derived from the caller's, which leaves a [WithTimeout] or
    [WithCancel] effect.  On success the result is the listener that was
    started, whose [buffer] is the returned channel. *)
Definition ListenForReply
    (p : PubSubRequestReply) (start : time.Time)
    (cmdMsg : Message) (command : Command)
  : M Effect (Listener + error) :=
  let scParams :=
    {| sc_CommandUUID := UUID cmdMsg; sc_CommandMessage := cmdMsg;
       sc_Command := command |} in
  emit (CallSubscriberConstructor scParams) ;;
  match SubscriberConstructor (config p) scParams with
  | inr err =>
      ret (inr (Wrap err "cannot create request/reply notifications subscriber"))
  | inl notificationsSubscriber =>
      let tgParams :=
        {| tg_CommandUUID := UUID cmdMsg; tg_CommandMessage := cmdMsg;
           tg_Command := command |} in
      emit (CallGenerateReplyNotificationTopic tgParams) ;;
      match GenerateReplyNotificationTopic (config p) tgParams with
      | inr err =>
          ret (inr (Wrap err "cannot generate request/reply notifications topic"))
      | inl replyNotificationTopic =>
          emit (match ListenForReplyTimeout (config p) with
                | Some d => WithTimeout d
                | None => WithCancel
                end) ;;
          emit (CallSubscribe replyNotificationTopic) ;;
          match Subscribe notificationsSubscriber replyNotificationTopic with
          | Some err =>
              emit Cancel ;;
              ret (inr (Wrap err "cannot subscribe to request/reply notifications topic"))
          | None =>
              emit (LogDebug "Subscribed to request/reply notifications topic") ;;
              emit (MakeChan replyChanCapacity) ;;
              emit Go ;;
              ret (inl spawned)
          end
      end
  end.

End Backend.

Arguments PubSubRequestReplySubscriberConstructorParams : clear implicits.
Arguments PubSubRequestReplyTopicGeneratorParams : clear implicits.
Arguments PubSubRequestReplyConfig : clear implicits.
Arguments PubSubRequestReply : clear implicits.
Arguments Effect : clear implicits.
Arguments Listener : clear implicits.

End cqrs.

(** ** components/requestreply: the command bus side and the handlers *)

Module requestreply.
Import errors message effects.

(** A [context.Context] as the functions below see it: what
    [cqrs.OriginalMessageFromCtx] finds in the context they are given, and
    the contexts derived from it by [context.WithCancel]. *)
Inductive ContextT : Type :=
| Given (originalMessage : option Message)
| cancelCtx (parent : ContextT).

(** Modelled from the spec: [cqrs.OriginalMessageFromCtx] is not part of the
    sources; it locates the original inbound CommandMessage via the
    processing context, and finds none ([nil]) when the context was never
    given one.  Deriving a context keeps its values. *)
Fixpoint OriginalMessageFromCtx (ctx : ContextT) : option Message :=
  match ctx with
  | Given originalMessage => originalMessage
  | cancelCtx parent => OriginalMessageFromCtx parent
  end.

Section Bus.

Context {Command : Type}.

(** The metadata key of the operation id, a string constant declared
    outside the sources. *)
Variable OperationIDMetadataKey : string.

Record BackendListenForNotificationsParams : Type := {
  lp_Command : Command;
  lp_OperationID : string;
}.

Record BackendOnCommandProcessedParams (Result : Type) : Type := {
  op_Command : Command;
  op_CommandMessage : Message;
  op_HandlerResult : Result;
  op_HandleErr : option error;
}.

(** Modelled from the spec: the [Backend] contract, whose declaration is
    not part of the sources.  [ListenForNotifications(ctx, {Command,
    OperationID})] gives a stream of replies or an error;
    [OnCommandProcessed(ctx, {Command, CommandMessage, HandlerResult,
    HandleErr})] gives an error.  [Chan] is the type of the stream. *)
Record Backend (Result Chan : Type) : Type := {
  ListenForNotifications :
    ContextT -> BackendListenForNotificationsParams -> Chan + error;
  OnCommandProcessed :
    ContextT -> BackendOnCommandProcessedParams Result -> option error;
}.

Record CommandBus : Type := {
  SendWithModifiedMessage :
    ContextT -> Command -> (Message -> Message * option error) -> option error;
}.

Inductive Effect (Result : Type) : Type :=
| WithCancel (parent : ContextT)
| NewUUID
| CallListenForNotifications (ctx : ContextT) (params : BackendListenForNotificationsParams)
| CallSendWithModifiedMessage (ctx : ContextT) (cmd : Command)
    (modify : Message -> Message * option error)
| Cancel (ctx : ContextT)
| CallHandleFunc (ctx : ContextT) (cmd : Command)
| CallOnCommandProcessed (ctx : ContextT) (params : BackendOnCommandProcessedParams Result).

Arguments WithCancel {Result}.
Arguments NewUUID {Result}.
Arguments CallListenForNotifications {Result}.
Arguments CallSendWithModifiedMessage {Result}.
Arguments Cancel {Result}.
Arguments CallHandleFunc {Result}.
Arguments CallOnCommandProcessed {Result}.
Arguments ListenForNotifications {Result Chan}.
Arguments OnCommandProcessed {Result Chan}.
Arguments Build_BackendOnCommandProcessedParams {Result}.

(** The closure [func(m *message.Message) error] that [SendWithReply] hands
    to the command bus. *)
Definition setOperationID (operationID : string) (m : Message)
  : Message * option error :=
  (SetMetadata m OperationIDMetadataKey operationID, None).

(** [SendWithReply].  [operationID] is the value [watermill.NewUUID()]
    returns.  The returned [cancel] function is given as the context it
    cancels; the deferred function runs after the result is set. *)
Definition SendWithReply {Result Chan : Type}
    (operationID : string)
    (ctx : ContextT) (c : CommandBus) (backend : Backend Result Chan)
    (cmd : Command)
  : M (Effect Result) (option Chan * ContextT * option error) :=
  emit (WithCancel ctx) ;;
  let ctx := cancelCtx ctx in
  let cancel := ctx in
  '(replCh, err) ← (
    emit NewUUID ;;
    let params := {| lp_Command := cmd; lp_OperationID := operationID |} in
    emit (CallListenForNotifications ctx params) ;;
    match ListenForNotifications backend ctx params with
    | inr err => ret (None, Some (Wrap err "cannot listen for reply"))
    | inl replyChan =>
        let modify := setOperationID operationID in
        emit (CallSendWithModifiedMessage ctx cmd modify) ;;
        match SendWithModifiedMessage c ctx cmd modify with
        | Some err => ret (None, Some (Wrap err "cannot send command"))
        | None => ret (Some replyChan, None)
        end
    end) ;
  match err with
  | Some _ => emit (Cancel cancel)
  | None => ret tt
  end ;;
  ret (replCh, cancel, err).

Definition originalCommandMsgFromCtx (ctx : ContextT) : Message + error :=
  match OriginalMessageFromCtx ctx with
  | None =>
      inr (New ("original message not found in context, did you passed context correctly everywhere? "
                +:+ "did you used cqrs.CommandProcessor? "
                +:+ "if you are using custom implementation, please call cqrs.CtxWithOriginalMessage on context passed to handler"))
  | Some originalMessage => inl originalMessage
  end.

Record CommandHandler (Result : Type) : Type := {
  HandlerName : string;
  Handle : ContextT -> Command -> M (Effect Result) (option error);
}.

(** Modelled from the spec: [cqrs.NewCommandHandler] is not part of the
    sources; the handler it builds runs the given function on the
    processing context and the command. *)
Definition cqrs_NewCommandHandler {Result : Type} (handlerName : string)
    (handleFunc : ContextT -> Command -> M (Effect Result) (option error))
  : CommandHandler Result :=
  {| HandlerName := handlerName; Handle := handleFunc |}.

Definition NewCommandHandler {Chan : Type}
    (handlerName : string) (backend : Backend unit Chan)
    (handleFunc : ContextT -> Command -> option error)
  : CommandHandler unit :=
  cqrs_NewCommandHandler handlerName (fun ctx cmd =>
    emit (CallHandleFunc ctx cmd) ;;
    let handlerErr := handleFunc ctx cmd in
    match originalCommandMsgFromCtx ctx with
    | inr err => ret (Some err)
    | inl originalMessage =>
        let params :=
          {| op_Command := cmd; op_CommandMessage := originalMessage;
             op_HandlerResult := tt; op_HandleErr := handlerErr |} in
        emit (CallOnCommandProcessed ctx params) ;;
        ret (OnCommandProcessed backend ctx params)
    end).

Definition NewCommandHandlerWithResult {Result Chan : Type}
    (handlerName : string) (backend : Backend Result Chan)
    (handleFunc : ContextT -> Command -> Result * option error)
  : CommandHandler Result :=
  cqrs_NewCommandHandler handlerName (fun ctx cmd =>
    emit (CallHandleFunc ctx cmd) ;;
    let '(resp, handlerErr) := handleFunc ctx cmd in
    match originalCommandMsgFromCtx ctx with
    | inr err => ret (Some err)
    | inl originalMessage =>
        let params :=
          {| op_Command := cmd; op_CommandMessage := originalMessage;
             op_HandlerResult := resp; op_HandleErr := handlerErr |} in
        emit (CallOnCommandProcessed ctx params) ;;
        ret (OnCommandProcessed backend ctx params)
    end).

End Bus.

Arguments BackendOnCommandProcessedParams : clear implicits.
Arguments Backend : clear implicits.
Arguments CommandBus : clear implicits.
Arguments Effect : clear implicits.
Arguments CommandHandler : clear implicits.
Arguments WithCancel {Command Result}.
Arguments NewUUID {Command Result}.
Arguments CallListenForNotifications {Command Result}.
Arguments CallSendWithModifiedMessage {Command Result}.
Arguments Cancel {Command Result}.
Arguments CallHandleFunc {Command Result}.
Arguments CallOnCommandProcessed {Command Result}.
Arguments ListenForNotifications {Command Result Chan}.
Arguments OnCommandProcessed {Command Result Chan}.
Arguments HandlerName {Command Result}.
Arguments Handle {Command Result}.
Arguments op_Command {Command Result}.
Arguments op_CommandMessage {Command Result}.
Arguments op_HandlerResult {Command Result}.
Arguments op_HandleErr {Command Result}.

End requestreply.

(** ** What statements about the listener observe *)

Module observe.
Import errors message effects cqrs.

Section Listener.

Context {Command : Type}.
Variables (p : PubSubRequestReply Command) (start : time.Time) (cmdMsg : Message).

(** The replies written to [replyChan], oldest first. *)
Definition sent (t : list (Effect Command)) : list CommandReply :=
  omap (fun e => match e with ChanSend reply => Some reply | _ => None end) t.

(** The reply of a send that has not completed yet. *)
Definition pending (l : Listener Command) : list CommandReply :=
  match goroutine l with
  | AtSend reply _ => [reply]
  | _ => []
  end.

Definition timeoutReply (now : time.Time) (cause : error) : CommandReply :=
  {| ReplyMsg := None;
     Err := Some (ReplyTimeoutError (time.Since now start) cause) |}.

Definition is_timeout (reply : CommandReply) : bool :=
  match Err reply with
  | Some (ReplyTimeoutError _ _) => true
  | _ => false
  end.

(** A notification matches when its handled-command-id metadata is the
    UUID of the command, and decodes when the marshaler accepts it. *)
Definition matches (notifyMsg : Message) : Prop :=
  Get (Metadata notifyMsg) handledCommandUuidMetadataKey = UUID cmdMsg.

(** The reply a [select] case calls for, and what follows its send:
    a timeout reply and [return] on expiry or closure, the
    notification's reply and [continue] on a notification that matches
    and decodes, nothing otherwise. *)
Definition expected_reply (c : SelectCase) : option (CommandReply * Next) :=
  match c with
  | CtxDone now err => Some (timeoutReply now err, Return)
  | NotifyClosed now =>
      Some (timeoutReply now (errorString "subscriber closed"), Return)
  | NotifyMsg notifyMsg =>
      if decide (matches notifyMsg) then
        match Unmarshal (Marshaler (config p)) notifyMsg with
        | inl notification =>
            Some ({| ReplyMsg := Some notifyMsg;
                     Err := if HasError notification
                            then Some (CommandHandlerError (errorString (Error notification)))
                            else None |}, Continue)
        | inr _ => None
        end
      else None
  end.

Definition expected_replies (evs : list Event) : list CommandReply :=
  omap (fun ev => match ev with
                  | Select c => fst <$> expected_reply c
                  | Receive => None
                  end) evs.

(** A notification that gives no reply: another command's, or one that
    does not decode. *)
Definition unanswered (ev : Event) : Prop :=
  match ev with
  | Select (NotifyMsg notifyMsg) => expected_reply (NotifyMsg notifyMsg) = None
  | _ => False
  end.

(** The replies built so far: those written and the one being written. *)
Definition built (l : Listener Command) : list CommandReply :=
  sent (trace l) ++ pending l.

(** What holds of the listener in every state it can reach. *)
Record consistent (l : Listener Command) : Prop := {
  received_then_buffered : received l ++ buffer l = sent (trace l);
  buffer_bounded : (length (buffer l) ≤ replyChanCapacity)%nat;
  blocked_on_full :
    ∀ reply next, goroutine l = AtSend reply next ->
                  length (buffer l) = replyChanCapacity;
  blocked_return_is_timeout :
    ∀ reply, goroutine l = AtSend reply Return -> is_timeout reply = true;
  closed_iff_returned : closed l = true ↔ goroutine l = Returned;
  returned_after_timeout :
    goroutine l = Returned ->
    ∃ t reply, trace l = t ++ [ChanSend reply; Cancel; ChanClose]
               ∧ is_timeout reply = true;
}.

(** The two properties the listener would have if it returned after its
    first reply: at most one reply is ever written, and the channel is
    closed once one is; and no send ever waits. *)
Definition single_reply : Prop :=
  ∀ evs l, run p start cmdMsg spawned evs = Some l ->
    (length (sent (trace l)) ≤ 1)%nat
    ∧ (sent (trace l) ≠ [] -> goroutine l = Returned ∧ closed l = true).

Definition never_blocks : Prop :=
  ∀ evs l, run p start cmdMsg spawned evs = Some l -> pending l = [].

(** The [select] cases that end the wait without a notification. *)
Definition expiry (c : SelectCase) : option (time.Time * error) :=
  match c with
  | CtxDone now err => Some (now, err)
  | NotifyClosed now => Some (now, errorString "subscriber closed")
  | NotifyMsg _ => None
  end.

End Listener.

(** The notification [OnCommandProcessed] builds for a handler outcome. *)
Definition notificationOf (handleErr : option error) : RequestReplyNotification :=
  match handleErr with
  | Some e => {| Error := errors.Error e; HasError := true |}
  | None => {| Error := ""; HasError := false |}
  end.

(** The reply error the caller is to see for a handler outcome. *)
Definition replyErrorOf (handleErr : option error) : option ReplyError :=
  match handleErr with
  | Some e => Some (CommandHandlerError (errorString (errors.Error e)))
  | None => None
  end.

(** The marshaler round-trips the notification fields: what it marshals
    unmarshals to the same notification from any message with that
    payload. *)
Definition roundtrips (m : PubSubRequestReplyMarshaler) : Prop :=
  ∀ v msg, Marshal m v = inl msg ->
    ∀ msg', Payload msg' = Payload msg -> Unmarshal m msg' = inl v.

(** A [ModifyNotificationMessage] hook that only adds to the message: it
    keeps the payload and the handled-command-id metadata. *)
Definition keeps_notification
    (modify : Message -> option error -> Message * option error) : Prop :=
  ∀ msg handleErr msg', modify msg handleErr = (msg', None) ->
    Payload msg' = Payload msg
    ∧ Get (Metadata msg') handledCommandUuidMetadataKey
      = Get (Metadata msg) handledCommandUuidMetadataKey.

End observe.

(** ** What statements about the command bus side observe *)

Module observe_bus.
Import errors message effects requestreply.

Section Bus.

Context {Command Result : Type}.

(** The commands handed to the command bus. *)
Definition sends (t : list (Effect Command Result)) : list Command :=
  omap (fun e => match e with
                 | CallSendWithModifiedMessage _ cmd _ => Some cmd
                 | _ => None
                 end) t.

(** The outcomes reported to the backend. *)
Definition reports (t : list (Effect Command Result))
  : list (BackendOnCommandProcessedParams Command Result) :=
  omap (fun e => match e with
                 | CallOnCommandProcessed _ params => Some params
                 | _ => None
                 end) t.

(** The contexts cancelled. *)
Definition cancels (t : list (Effect Command Result)) : list ContextT :=
  omap (fun e => match e with
                 | Cancel ctx => Some ctx
                 | _ => None
                 end) t.

End Bus.

End observe_bus.

(** ** Concrete collaborators used to run the model *)

Module fixtures.
Import errors message effects cqrs.

(** A marshaler that writes the error flag in the first byte of the payload
    and the error message after it. *)
Definition flagMarshal (v : RequestReplyNotification) : Message + error :=
  inl {| UUID := "notification"; Metadata := ∅;
         Payload := (if HasError v then Byte.x01 else Byte.x00)
                    :: String.list_byte_of_string (Error v);
         Context_ := 0%nat |}.

Definition flagUnmarshal (msg : Message) : RequestReplyNotification + error :=
  match Payload msg with
  | Byte.x00 :: rest =>
      inl {| Error := String.string_of_list_byte rest; HasError := false |}
  | Byte.x01 :: rest =>
      inl {| Error := String.string_of_list_byte rest; HasError := true |}
  | _ => inr (errorString "malformed notification")
  end.

Definition flagMarshaler : PubSubRequestReplyMarshaler :=
  {| Marshal := flagMarshal; Unmarshal := flagUnmarshal |}.

Definition backend : PubSubRequestReply unit :=
  {| config :=
       {| Publisher := fun _ _ => None;
          SubscriberConstructor := fun _ => inl {| Subscribe := fun _ => None |};
          GenerateReplyNotificationTopic :=
            fun params => inl ("replies_" +:+ tg_CommandUUID params);
          Marshaler := flagMarshaler;
          ListenForReplyTimeout := Some 50;
          ModifyNotificationMessage := None |} |}.

(** A command message that went through
    [ModifyCommandMessageBeforePublish]. *)
Definition command : Message :=
  {| UUID := "cmd-1";
     Metadata := {[ notifyWhenExecutedMetadataKey := "1" ]};
     Payload := []; Context_ := 7%nat |}.

(** A command message that did not. *)
Definition plainCommand : Message :=
  {| UUID := "cmd-2"; Metadata := ∅; Payload := []; Context_ := 7%nat |}.

(** Notifications as the handler side publishes them for [command]. *)
Definition notification (flag : Byte.byte) (text : string) (handled : string) : Message :=
  {| UUID := "notification";
     Metadata := {[ handledCommandUuidMetadataKey := handled ]};
     Payload := flag :: String.list_byte_of_string text;
     Context_ := 7%nat |}.

Definition succeeded : Message := notification Byte.x00 "" "cmd-1".
Definition failed : Message := notification Byte.x01 "insufficient funds" "cmd-1".
Definition foreign : Message := notification Byte.x00 "" "cmd-9".
Definition garbled : Message := notification Byte.xff "" "cmd-1".

(** Backends and command buses that work, or fail at setup. *)
Definition listening : requestreply.Backend unit unit nat :=
  {| requestreply.ListenForNotifications := fun _ _ => inl 1%nat;
     requestreply.OnCommandProcessed := fun _ _ => None |}.

Definition deaf : requestreply.Backend unit unit nat :=
  {| requestreply.ListenForNotifications := fun _ _ => inr (errorString "no subscriber");
     requestreply.OnCommandProcessed := fun _ _ => None |}.

Definition bus : requestreply.CommandBus unit :=
  {| requestreply.SendWithModifiedMessage := fun _ _ _ => None |}.

Definition brokenBus : requestreply.CommandBus unit :=
  {| requestreply.SendWithModifiedMessage :=
       fun _ _ _ => Some (errorString "publish failed") |}.

(** Processing contexts with and without the original message. *)
Definition processing : requestreply.ContextT := requestreply.Given (Some command).
Definition bare : requestreply.ContextT := requestreply.Given None.

End fixtures.

(** ** More observations on the backend *)

Module observe_more.
Import errors message effects cqrs observe.

Section Backend.

Context {Command : Type}.

(** The messages acknowledged, oldest first. *)
Definition acks (t : list (Effect Command)) : list Message :=
  omap (fun e => match e with Ack msg => Some msg | _ => None end) t.

(** The messages handed to the marshaler for decoding. *)
Definition unmarshals (t : list (Effect Command)) : list Message :=
  omap (fun e => match e with CallUnmarshal msg => Some msg | _ => None end) t.


(** The notifications the [select] statement took from the subscription. *)
Definition notifications (evs : list Event) : list Message :=
  omap (fun ev => match ev with
                  | Select (NotifyMsg notifyMsg) => Some notifyMsg
                  | _ => None
                  end) evs.

(** The effects that concern [replyChan] and the context only. *)
Definition is_channel_effect (e : Effect Command) : bool :=
  match e with
  | ChanSend _ | Cancel | ChanClose => true
  | _ => false
  end.

(** Timeout replies come last: while the goroutine can still take a
    notification none was built; afterwards exactly one was, after all the
    others. *)
Definition timeout_last (l : Listener Command) : Prop :=
  match goroutine l with
  | AtSelect => Forall (fun r => is_timeout r = false) (sent (trace l))
  | AtSend reply Continue =>
      Forall (fun r => is_timeout r = false) (sent (trace l))
      ∧ is_timeout reply = false
  | AtSend reply Return =>
      Forall (fun r => is_timeout r = false) (sent (trace l))
      ∧ is_timeout reply = true
  | Returned =>
      ∃ others reply,
        sent (trace l) = others ++ [reply]
        ∧ Forall (fun r => is_timeout r = false) others
        ∧ is_timeout reply = true
  end.

(** What a step of the listener adds to the trace before it touches the
    channel: the effects of handling the notification, if it takes one. *)
Definition handled (p : PubSubRequestReply Command) (cmdMsg : Message)
    (ev : Event) : list (Effect Command) :=
  match ev with
  | Select (NotifyMsg notifyMsg) => snd (handleNotifyMsg p notifyMsg (UUID cmdMsg))
  | _ => []
  end.

(** The outcome of the handler reaches the caller whenever the marshaler
    round-trips, whatever else is configured: a notification that
    [OnCommandProcessed] has published makes the listener of that command
    write the reply of the handler outcome. *)
Definition outcome_reaches_caller (p : PubSubRequestReply Command) : Prop :=
  roundtrips (Marshaler (config p)) ->
  ∀ (start : time.Time) (cmdMsg : Message) (cmd : Command)
    (handleErr : option error) (effs : list (Effect Command))
    (topic : string) (notificationMsg : Message),
    Get (Metadata cmdMsg) notifyWhenExecutedMetadataKey = "1" ->
    OnCommandProcessed p cmdMsg cmd handleErr = (None, effs) ->
    last effs = Some (CallPublish topic notificationMsg) ->
    ∃ l', step p start cmdMsg spawned (Select (NotifyMsg notificationMsg)) = Some l'
          ∧ sent (trace l')
            = [{| ReplyMsg := Some notificationMsg; Err := replyErrorOf handleErr |}].

(** The message [OnCommandProcessed] stamps: the marshaled notification
    with the context of the command message and its UUID as
    handled-command-id. *)
Definition stamped (cmdMsg marshaled : Message) : Message :=
  SetMetadata (SetContext marshaled (Context_ cmdMsg))
    handledCommandUuidMetadataKey (UUID cmdMsg).

End Backend.
End observe_more.

(** ** components/cqrs: building the Pub/Sub request/reply backend *)

Module watermill.

(** [watermill.LoggerAdapter]: the no-op logger, a logger given by the
    caller, and what [With] makes of a logger. *)
Inductive LoggerAdapter : Type :=
| NopLogger
| GivenLogger (name : string)
| WithFields (parent : LoggerAdapter) (fields : gmap string string).

(** [watermill.LogFields], with the values as they print. *)
Definition LogFields : Type := gmap string string.

Definition With (l : LoggerAdapter) (fields : LogFields) : LoggerAdapter :=
  WithFields l fields.

End watermill.

Module cqrs_setup.
Import errors message effects watermill.

Section Config.

Context {Command : Type}.

(** [JSONMarshaler{}], the default marshaler, declared outside the
    sources. *)
Variable JSONMarshaler : cqrs.PubSubRequestReplyMarshaler.

(** [PubSubRequestReplyConfig] as the caller fills it in: every interface
    and function field may be nil. *)
Record PubSubRequestReplyConfig : Type := {
  Publisher : option (string -> Message -> option error);
  SubscriberConstructor :
    option (cqrs.PubSubRequestReplySubscriberConstructorParams Command
            -> cqrs.Subscriber + error);
  GenerateReplyNotificationTopic :
    option (cqrs.PubSubRequestReplyTopicGeneratorParams Command -> string + error);
  Marshaler : option cqrs.PubSubRequestReplyMarshaler;
  Logger : option LoggerAdapter;
  ListenForReplyTimeout : option time.Duration;
  ModifyNotificationMessage :
    option (Message -> option error -> Message * option error);
}.

Definition setDefaults (p : PubSubRequestReplyConfig) : PubSubRequestReplyConfig :=
  let p :=
    match Logger p with
    | None =>
        {| Publisher := Publisher p;
           SubscriberConstructor := SubscriberConstructor p;
           GenerateReplyNotificationTopic := GenerateReplyNotificationTopic p;
           Marshaler := Marshaler p;
           Logger := Some NopLogger;
           ListenForReplyTimeout := ListenForReplyTimeout p;
           ModifyNotificationMessage := ModifyNotificationMessage p |}
    | Some _ => p
    end in
  match Marshaler p with
  | None =>
      {| Publisher := Publisher p;
         SubscriberConstructor := SubscriberConstructor p;
         GenerateReplyNotificationTopic := GenerateReplyNotificationTopic p;
         Marshaler := Some JSONMarshaler;
         Logger := Logger p;
         ListenForReplyTimeout := ListenForReplyTimeout p;
         ModifyNotificationMessage := ModifyNotificationMessage p |}
  | Some _ => p
  end.

Definition Validate (p : PubSubRequestReplyConfig) : option error :=
  match Publisher p with
  | None => Some (New "publisher cannot be nil")
  | Some _ =>
      match SubscriberConstructor p with
      | None => Some (New "subscriber constructor cannot be nil")
      | Some _ =>
          match GenerateReplyNotificationTopic p with
          | None => Some (New "GenerateReplyNotificationTopic cannot be nil")
          | Some _ => None
          end
      end
  end.

Record PubSubRequestReply : Type := { config : PubSubRequestReplyConfig }.

Definition NewPubSubRequestReply (config : PubSubRequestReplyConfig)
  : PubSubRequestReply + error :=
  let config := setDefaults config in
  match Validate config with
  | Some err => inr (Wrap err "invalid config")
  | None => inl {| config := config |}
  end.

(** The backend as its methods use it: with every collaborator they call
    in place.  [None] when one of them is nil, where the method would
    panic. *)
Definition ready (p : PubSubRequestReply) : option (cqrs.PubSubRequestReply Command) :=
  match Publisher (config p), SubscriberConstructor (config p),
        GenerateReplyNotificationTopic (config p), Marshaler (config p),
        Logger (config p) with
  | Some publisher, Some constructor, Some generate, Some marshaler, Some _ =>
      Some {| cqrs.config :=
                {| cqrs.Publisher := publisher;
                   cqrs.SubscriberConstructor := constructor;
                   cqrs.GenerateReplyNotificationTopic := generate;
                   cqrs.Marshaler := marshaler;
                   cqrs.ListenForReplyTimeout := ListenForReplyTimeout (config p);
                   cqrs.ModifyNotificationMessage :=
                     ModifyNotificationMessage (config p) |} |}
  | _, _, _, _, _ => None
  end.

End Config.

Arguments PubSubRequestReplyConfig : clear implicits.
Arguments PubSubRequestReply : clear implicits.

End cqrs_setup.

(** ** components/cqrs: the event group processor *)

Module stdErrors.

(** The errors of the event group processor's configuration: the errors of
    the rest of the code, what the standard library's [errors.Join] makes
    of several errors, and [errors.Wrap] around either. *)
#[warnings="-register-all"] Inductive error : Type :=
| leaf (e : errors.error)
| joinError (errs : list error)
| withMessage (cause : error) (msg : string).

Definition newline : string := String (Ascii.ascii_of_nat 10) "".

(** [Error()]: a joined error prints its errors one per line. *)
Fixpoint Error (e : error) : string :=
  match e with
  | leaf e => errors.Error e
  | joinError errs =>
      (fix lines (errs : list error) : string :=
         match errs with
         | [] => ""
         | e :: rest =>
             match rest with
             | [] => Error e
             | _ => Error e +:+ newline +:+ lines rest
             end
         end) errs
  | withMessage cause msg => msg +:+ ": " +:+ Error cause
  end.

(** [errors.Join]: nil values are dropped; nil when nothing is left. *)
Definition Join (errs : list (option error)) : option error :=
  match omap id errs with
  | [] => None
  | errs => Some (joinError errs)
  end.

Definition Wrap (err : error) (message : string) : error := withMessage err message.

End stdErrors.

Module cqrs_events.
Import errors message effects watermill.

Section Processor.

(** The types of events ([any] in the source), of the router and of the
    subscribers. *)
Context {Event Router Subscriber : Type}.

(** [GroupEventHandler], an interface declared outside the sources, with
    the two methods the processor calls.  [TypeName] is the name of the
    dynamic type of the handler, which [%T] prints.  The values of this
    type are the handlers that exist: the nil interface value, on which
    [NewEvent] and [Handle] cannot be called, is not one of them. *)
Record GroupEventHandler : Type := {
  TypeName : string;
  NewEvent : Event;
  Handle : nat -> Event -> option error;
}.

(** [CommandEventMarshaler], an interface declared outside the sources,
    with the three methods the processor calls.  [Unmarshal] fills the
    event it is given. *)
Record CommandEventMarshaler : Type := {
  Name : Event -> string;
  NameFromMessage : Message -> string;
  Unmarshal : Message -> Event -> Event + error;
}.

Record GenerateEventHandlerGroupTopicParams : Type := {
  tp_EventGroupName : string;
  tp_EventGroupHandlers : list GroupEventHandler;
}.

Record EventsGroupSubscriberConstructorParams : Type := {
  sp_EventGroupName : string;
  sp_EventGroupHandlers : list GroupEventHandler;
}.

Record OnGroupEventHandleParams : Type := {
  GroupName : string;
  Handler : GroupEventHandler;
  Event_ : Event;
  EventName : string;
  Message_ : Message;
}.

Record EventGroupProcessorConfig : Type := {
  GenerateHandlerGroupSubscribeTopic :
    option (GenerateEventHandlerGroupTopicParams -> string + error);
  GroupSubscriberConstructor :
    option (EventsGroupSubscriberConstructorParams -> Subscriber + error);
  OnGroupHandle : option (OnGroupEventHandleParams -> option error);
  AckOnUnknownEvent : bool;
  Marshaler : option CommandEventMarshaler;
  Logger : option LoggerAdapter;
}.

Definition setDefaults (c : EventGroupProcessorConfig) : EventGroupProcessorConfig :=
  match Logger c with
  | None =>
      {| GenerateHandlerGroupSubscribeTopic := GenerateHandlerGroupSubscribeTopic c;
         GroupSubscriberConstructor := GroupSubscriberConstructor c;
         OnGroupHandle := OnGroupHandle c;
         AckOnUnknownEvent := AckOnUnknownEvent c;
         Marshaler := Marshaler c;
         Logger := Some NopLogger |}
  | Some _ => c
  end.

Definition Validate (c : EventGroupProcessorConfig) : option stdErrors.error :=
  let err : option stdErrors.error := None in
  let err :=
    match Marshaler c with
    | None => stdErrors.Join [err; Some (stdErrors.leaf (New "missing Marshaler"))]
    | Some _ => err
    end in
  let err :=
    match GenerateHandlerGroupSubscribeTopic c with
    | None =>
        stdErrors.Join
          [err; Some (stdErrors.leaf
                        (New "missing GenerateHandlerGroupTopic while GroupSubscriberConstructor is provided"))]
    | Some _ => err
    end in
  let err :=
    match GroupSubscriberConstructor c with
    | None =>
        stdErrors.Join
          [err; Some (stdErrors.leaf
                        (New "missing GroupSubscriberConstructor while GenerateHandlerGroupTopic is provided"))]
    | Some _ => err
    end in
  err.

Record EventGroupProcessor : Type := {
  groupEventHandlers : gmap string (list GroupEventHandler);
  config : EventGroupProcessorConfig;
}.

Definition NewEventGroupProcessorWithConfig (config : EventGroupProcessorConfig)
  : EventGroupProcessor + stdErrors.error :=
  let config := setDefaults config in
  match Validate config with
  | Some err => inr (stdErrors.Wrap err "invalid config EventProcessor")
  | None => inl {| groupEventHandlers := ∅; config := config |}
  end.

(** [AddHandlersGroup]: the processor after the call and the error. *)
Definition AddHandlersGroup (p : EventGroupProcessor) (handlerName : string)
    (handlers : list GroupEventHandler) : EventGroupProcessor * option error :=
  if (length handlers =? 0)%nat then (p, Some (New "no handlers provided"))
  else
    match groupEventHandlers p !! handlerName with
    | Some _ =>
        (p, Some (errorString ("event handler group '" +:+ handlerName
                               +:+ "' already exists")))
    | None =>
        ({| groupEventHandlers := <[handlerName := handlers]> (groupEventHandlers p);
            config := config p |}, None)
    end.

(** What a call ends in: it returns an error or nil, or it panics because
    an option of the configuration that it calls is nil. *)
Inductive Outcome : Type :=
| Returns (err : option error)
| Panics.

(** Everything the processor does to the outside, in program order. *)
Inductive Effect : Type :=
| Trace (logger : LoggerAdapter) (msg : string) (fields : LogFields)
| Debug (logger : LoggerAdapter) (msg : string) (fields : LogFields)
| CallUnmarshal (msg : Message) (event : Event)
| CallHandle (handler : GroupEventHandler) (ctx : nat) (event : Event)
| CallOnGroupHandle (params : OnGroupEventHandleParams)
| CallValidateEvent (event : Event)
| CallGenerateHandlerGroupSubscribeTopic (params : GenerateEventHandlerGroupTopicParams)
| CallGroupSubscriberConstructor (params : EventsGroupSubscriberConstructorParams)
| CallAddHandlerToRouter (logger : LoggerAdapter) (r : Router)
    (groupName topicName : string) (subscriber : Subscriber).

(** The loop [for _, handler := range handlers] of the function that
    [routerHandlerGroupFunc] returns, with the statements that follow it. *)
Fixpoint rangeHandlers (p : EventGroupProcessor) (groupName : string)
    (logger : LoggerAdapter) (marshaler : CommandEventMarshaler)
    (msg : Message) (messageEventName : string)
    (handlers : list GroupEventHandler) : M Effect (option error) :=
  match handlers with
  | [] =>
      if negb (AckOnUnknownEvent (config p)) then
        ret (Some (errorString ("no handler found for event "
                                +:+ NameFromMessage marshaler msg)))
      else
        emit (Trace logger
                "Received event can't be handled by any handler in handler group"
                {[ "message_uuid" := UUID msg;
                   "received_event_type" := messageEventName ]}) ;;
        ret None
  | handler :: rest =>
      let initEvent := NewEvent handler in
      let expectedEventName := Name marshaler initEvent in
      let event := NewEvent handler in
      if decide (messageEventName ≠ expectedEventName) then
        emit (Trace logger "Received different event type than expected, ignoring"
                {[ "message_uuid" := UUID msg;
                   "expected_event_type" := expectedEventName;
                   "received_event_type" := messageEventName ]}) ;;
        rangeHandlers p groupName logger marshaler msg messageEventName rest
      else
        emit (Debug logger "Handling event"
                {[ "message_uuid" := UUID msg;
                   "received_event_type" := messageEventName ]}) ;;
        emit (CallUnmarshal msg event) ;;
        match Unmarshal marshaler msg event with
        | inr err => ret (Some err)
        | inl event =>
            let params :=
              {| GroupName := groupName; Handler := handler;
                 EventName := messageEventName; Event_ := event;
                 Message_ := msg |} in
            err ← match OnGroupHandle (config p) with
                  | Some handle =>
                      emit (CallOnGroupHandle params) ;;
                      ret (handle params)
                  | None =>
                      emit (CallHandle handler (Context_ msg) event) ;;
                      ret (Handle handler (Context_ msg) event)
                  end ;
            match err with
            | Some err =>
                emit (Debug logger "Error when handling event"
                        {[ "err" := errors.Error err ]}) ;;
                ret (Some err)
            | None => ret None
            end
        end
  end.

(** [routerHandlerGroupFunc]: the handler function of a group.  It never
    fails to build one. *)
Definition routerHandlerGroupFunc (p : EventGroupProcessor)
    (handlers : list GroupEventHandler) (groupName : string)
    (logger : LoggerAdapter) : (Message -> M Effect Outcome) + error :=
  inl (fun msg =>
         match Marshaler (config p) with
         | None => ret Panics
         | Some marshaler =>
             let messageEventName := NameFromMessage marshaler msg in
             err ← rangeHandlers p groupName logger marshaler msg
                     messageEventName handlers ;
             ret (Returns err)
         end).

(** [validateEvent] and [addHandlerToRouter], functions of the package
    declared outside the sources. *)
Variable validateEvent : Event -> option error.
Variable addHandlerToRouter :
  LoggerAdapter -> Router -> string -> string -> (Message -> M Effect Outcome)
  -> Subscriber -> option error.

(** The loop [for i, handler := range handlersGroup] of
    [AddHandlersToRouter]. *)
Fixpoint validateHandlers (groupName : string) (i : nat)
    (handlersGroup : list GroupEventHandler) : M Effect (option error) :=
  match handlersGroup with
  | [] => ret None
  | handler :: rest =>
      emit (CallValidateEvent (NewEvent handler)) ;;
      match validateEvent (NewEvent handler) with
      | Some err =>
          ret (Some (errors.withMessage err
                       ("invalid event for handler " +:+ TypeName handler
                        +:+ " (num " +:+ pretty i +:+ ") in group " +:+ groupName)))
      | None => validateHandlers groupName (S i) rest
      end
  end.

(** The loop [for groupName := range p.groupEventHandlers] of
    [AddHandlersToRouter], over the group names in the order in which
    [range] yields them. *)
Fixpoint rangeGroups (p : EventGroupProcessor) (r : Router)
    (groupNames : list string) : M Effect Outcome :=
  match groupNames with
  | [] => ret (Returns None)
  | groupName :: rest =>
      let handlersGroup := default [] (groupEventHandlers p !! groupName) in
      invalid ← validateHandlers groupName 0 handlersGroup ;
      match invalid with
      | Some err => ret (Returns (Some err))
      | None =>
          match GenerateHandlerGroupSubscribeTopic (config p) with
          | None =>
              ret (Returns (Some (New "missing GenerateHandlerGroupSubscribeTopic config option")))
          | Some generate =>
              let topicParams :=
                {| tp_EventGroupName := groupName;
                   tp_EventGroupHandlers := handlersGroup |} in
              emit (CallGenerateHandlerGroupSubscribeTopic topicParams) ;;
              match generate topicParams with
              | inr err =>
                  ret (Returns (Some (Wrap err ("cannot generate topic name for handler group "
                                                +:+ groupName))))
              | inl topicName =>
                  match Logger (config p) with
                  | None => ret Panics
                  | Some configLogger =>
                      let logger :=
                        With configLogger
                          {[ "event_handler_group_name" := groupName;
                             "topic" := topicName ]} in
                      match routerHandlerGroupFunc p handlersGroup groupName logger with
                      | inr err => ret (Returns (Some err))
                      | inl handlerFunc =>
                          match GroupSubscriberConstructor (config p) with
                          | None => ret Panics
                          | Some construct =>
                              let subscriberParams :=
                                {| sp_EventGroupName := groupName;
                                   sp_EventGroupHandlers := handlersGroup |} in
                              emit (CallGroupSubscriberConstructor subscriberParams) ;;
                              match construct subscriberParams with
                              | inr err =>
                                  ret (Returns (Some (Wrap err "cannot create subscriber for event processor")))
                              | inl subscriber =>
                                  emit (CallAddHandlerToRouter configLogger r groupName
                                          topicName subscriber) ;;
                                  match addHandlerToRouter configLogger r groupName
                                          topicName handlerFunc subscriber with
                                  | Some err => ret (Returns (Some err))
                                  | None => rangeGroups p r rest
                                  end
                              end
                          end
                      end
                  end
              end
          end
      end
  end.

(** [AddHandlersToRouter].  [groupNames] are the keys of
    [p.groupEventHandlers] in the order in which the [range] statement of
    this call yields them. *)
Definition AddHandlersToRouter (p : EventGroupProcessor) (r : Router)
    (groupNames : list string) : M Effect Outcome :=
  if (size (groupEventHandlers p) =? 0)%nat then
    ret (Returns (Some (New "EventProcessor has no handlers, did you call AddHandler?")))
  else rangeGroups p r groupNames.

End Processor.

Arguments GroupEventHandler : clear implicits.
Arguments CommandEventMarshaler : clear implicits.
Arguments GenerateEventHandlerGroupTopicParams : clear implicits.
Arguments EventsGroupSubscriberConstructorParams : clear implicits.
Arguments OnGroupEventHandleParams : clear implicits.
Arguments EventGroupProcessorConfig : clear implicits.
Arguments EventGroupProcessor : clear implicits.
Arguments Effect : clear implicits.

End cqrs_events.

(** ** What statements about the event group processor observe *)

Module observe_events.
Import errors message effects watermill cqrs_events.

Section Processor.

Context {Event Router Subscriber : Type}.

(** The complaints of [Validate], one per missing option, in the order
    of its checks. *)
Definition missing (c : EventGroupProcessorConfig Event Subscriber) : list string :=
  (if Marshaler c is None then ["missing Marshaler"] else [])
  ++ (if GenerateHandlerGroupSubscribeTopic c is None
      then ["missing GenerateHandlerGroupTopic while GroupSubscriberConstructor is provided"]
      else [])
  ++ (if GroupSubscriberConstructor c is None
      then ["missing GroupSubscriberConstructor while GenerateHandlerGroupTopic is provided"]
      else []).

(** A series of [AddHandlersGroup] calls, whatever each returns. *)
Definition addAll (p : EventGroupProcessor Event Subscriber)
    (calls : list (string * list (GroupEventHandler Event)))
  : EventGroupProcessor Event Subscriber :=
  foldl (fun p call => fst (AddHandlersGroup p call.1 call.2)) p calls.

(** The first call of a series that names the group and brings handlers. *)
Definition first_registration (name : string)
    (calls : list (string * list (GroupEventHandler Event)))
  : option (list (GroupEventHandler Event)) :=
  snd <$> head (filter (fun call => call.1 = name ∧ call.2 ≠ []) calls).

(** The handlers that were run on an event, directly or through
    [OnGroupHandle]. *)
Definition handled_by (t : list (Effect Event Router Subscriber))
  : list (GroupEventHandler Event) :=
  omap (fun e => match e with
                 | CallHandle handler _ _ => Some handler
                 | CallOnGroupHandle params => Some (Handler params)
                 | _ => None
                 end) t.

(** The handlers whose [Handle] the processor called itself. *)
Definition handled_directly (t : list (Effect Event Router Subscriber))
  : list (GroupEventHandler Event) :=
  omap (fun e => match e with
                 | CallHandle handler _ _ => Some handler
                 | _ => None
                 end) t.

(** The events the marshaler was asked to fill. *)
Definition unmarshaled (t : list (Effect Event Router Subscriber)) : list Event :=
  omap (fun e => match e with
                 | CallUnmarshal _ event => Some event
                 | _ => None
                 end) t.

(** The groups for which a subscriber was constructed, and those added to
    the router. *)
Definition constructed (t : list (Effect Event Router Subscriber))
  : list (EventsGroupSubscriberConstructorParams Event) :=
  omap (fun e => match e with
                 | CallGroupSubscriberConstructor params => Some params
                 | _ => None
                 end) t.

Definition added (t : list (Effect Event Router Subscriber)) : list string :=
  omap (fun e => match e with
                 | CallAddHandlerToRouter _ _ groupName _ _ => Some groupName
                 | _ => None
                 end) t.

(** A handler expects the event of a message when the marshaler gives
    its event and the message the same name. *)
Definition expects (marshaler : CommandEventMarshaler Event) (msg : Message)
    (handler : GroupEventHandler Event) : Prop :=
  Name marshaler (NewEvent handler) = NameFromMessage marshaler msg.

End Processor.
End observe_events.

(** ** More concrete collaborators *)

Module fixtures_more.
Import errors message effects watermill.


(** A backend whose [ModifyNotificationMessage] hook puts a byte in front
    of the payload. *)
Definition meddling : cqrs.PubSubRequestReply unit :=
  {| cqrs.config :=
       {| cqrs.Publisher := fun _ _ => None;
          cqrs.SubscriberConstructor :=
            fun _ => inl {| cqrs.Subscribe := fun _ => None |};
          cqrs.GenerateReplyNotificationTopic :=
            fun params => inl ("replies_" +:+ cqrs.tg_CommandUUID params);
          cqrs.Marshaler := fixtures.flagMarshaler;
          cqrs.ListenForReplyTimeout := None;
          cqrs.ModifyNotificationMessage :=
            Some (fun msg _ =>
                    ({| UUID := UUID msg; Metadata := Metadata msg;
                        Payload := Byte.xff :: Payload msg;
                        Context_ := Context_ msg |}, None)) |} |}.

(** A configuration of the backend with the required options only. *)
Definition minimal : cqrs_setup.PubSubRequestReplyConfig unit :=
  {| cqrs_setup.Publisher := Some (fun _ _ => None);
     cqrs_setup.SubscriberConstructor :=
       Some (fun _ => inl {| cqrs.Subscribe := fun _ => None |});
     cqrs_setup.GenerateReplyNotificationTopic :=
       Some (fun params => inl ("replies_" +:+ cqrs.tg_CommandUUID params));
     cqrs_setup.Marshaler := None;
     cqrs_setup.Logger := None;
     cqrs_setup.ListenForReplyTimeout := Some 50%Z;
     cqrs_setup.ModifyNotificationMessage := None |}.

(** Events with a name and a body; the name of the event of a message is in
    its metadata, the body is its payload. *)
Definition event : Type := string * list Byte.byte.

Definition namedMarshaler : cqrs_events.CommandEventMarshaler event :=
  {| cqrs_events.Name := fun e => e.1;
     cqrs_events.NameFromMessage := fun msg => Get (Metadata msg) "name";
     cqrs_events.Unmarshal :=
       fun msg e =>
         match Payload msg with
         | [] => inr (errorString "empty payload")
         | body => inl (e.1, body)
         end |}.

Definition handlerOf (typeName eventName : string) (result : option error)
  : cqrs_events.GroupEventHandler event :=
  {| cqrs_events.TypeName := typeName;
     cqrs_events.NewEvent := (eventName, []);
     cqrs_events.Handle := fun _ _ => result |}.

Definition onPlaced := handlerOf "PlacedHandler" "OrderPlaced" None.
Definition onPaid := handlerOf "PaidHandler" "OrderPaid" None.
Definition onPaidAgain :=
  handlerOf "AuditHandler" "OrderPaid" (Some (errorString "audit failed")).

Definition eventsConfig : cqrs_events.EventGroupProcessorConfig event unit :=
  {| cqrs_events.GenerateHandlerGroupSubscribeTopic :=
       Some (fun params => inl ("events_" +:+ cqrs_events.tp_EventGroupName params));
     cqrs_events.GroupSubscriberConstructor := Some (fun _ => inl tt);
     cqrs_events.OnGroupHandle := None;
     cqrs_events.AckOnUnknownEvent := false;
     cqrs_events.Marshaler := Some namedMarshaler;
     cqrs_events.Logger := None |}.

Definition fresh : cqrs_events.EventGroupProcessor event unit :=
  {| cqrs_events.groupEventHandlers := ∅;
     cqrs_events.config := cqrs_events.setDefaults eventsConfig |}.

Definition registrations
  : list (string * list (cqrs_events.GroupEventHandler event)) :=
  [("orders", [onPlaced; onPaid; onPaidAgain]); ("audit", []);
   ("orders", [onPaidAgain])].

Definition paid : Message :=
  {| UUID := "event-1"; Metadata := {[ "name" := "OrderPaid" ]};
     Payload := [Byte.x31]; Context_ := 3%nat |}.

Definition cancelled : Message :=
  {| UUID := "event-2"; Metadata := {[ "name" := "OrderCancelled" ]};
     Payload := [Byte.x32]; Context_ := 3%nat |}.

End fixtures_more.

(** ** The listener *)

Module listener_facts.
Import errors message effects cqrs observe.

Ltac run_effects :=
  cbv [mbind mret M_bind M_ret bind ret emit] in *; simpl in *.

Section Facts.

Context {Command : Type}.
Variables (p : PubSubRequestReply Command) (start : time.Time) (cmdMsg : Message).

Lemma handleNotifyMsg_mismatch notifyMsg :
  ¬ matches cmdMsg notifyMsg ->
  handleNotifyMsg p notifyMsg (UUID cmdMsg) =
    ((false, None),
     [LogDebug "Received notify message with different command UUID"; Ack notifyMsg]).
Proof.
  intros Hne. unfold handleNotifyMsg, matches in *.
  destruct (decide _) as [Heq|_]; [contradiction|]. reflexivity.
Qed.

Lemma handleNotifyMsg_match notifyMsg :
  matches cmdMsg notifyMsg ->
  handleNotifyMsg p notifyMsg (UUID cmdMsg) =
    (match Unmarshal (Marshaler (config p)) notifyMsg with
     | inr err => (false, Some (Wrap err "cannot unmarshal request reply notification"))
     | inl notification =>
         (true, if HasError notification
                then Some (New (Error notification)) else None)
     end,
     [CallUnmarshal notifyMsg; Ack notifyMsg]).
Proof.
  intros Heq. unfold handleNotifyMsg, matches in *.
  destruct (decide _) as [_|Hne]; [|contradiction].
  destruct (Unmarshal _ _) as [n|err]; [destruct (HasError n)|]; reflexivity.
Qed.

Lemma sent_app (t1 t2 : list (Effect Command)) : sent (t1 ++ t2) = sent t1 ++ sent t2.
Proof. apply omap_app. Qed.

Lemma run_app (l : Listener Command) (evs1 evs2 : list Event) :
  run p start cmdMsg l (evs1 ++ evs2) =
    match run p start cmdMsg l evs1 with
    | Some l' => run p start cmdMsg l' evs2
    | None => None
    end.
Proof.
  revert l. induction evs1 as [|ev evs1 IH]; intros l; simpl; [reflexivity|].
  destruct (step p start cmdMsg l ev); [apply IH | reflexivity].
Qed.

Lemma step_select (l : Listener Command) (c : SelectCase) :
  goroutine l = AtSelect ->
  step p start cmdMsg l (Select c) = Some (select p start cmdMsg c l).
Proof. intros Hg. simpl. rewrite Hg. reflexivity. Qed.

Lemma step_at_select (l l' : Listener Command) (c : SelectCase) :
  step p start cmdMsg l (Select c) = Some l' -> goroutine l = AtSelect.
Proof. simpl. destruct (goroutine l); congruence. Qed.

(** A notification that calls for no reply leaves everything but the
    trace as it was. *)
Lemma select_unanswered (l : Listener Command) notifyMsg :
  expected_reply p start cmdMsg (NotifyMsg notifyMsg) = None ->
  ∃ e, select p start cmdMsg (NotifyMsg notifyMsg) l =
         add_trace [e; Ack notifyMsg] l
       ∧ (e = LogDebug "Received notify message with different command UUID"
          ∨ e = CallUnmarshal notifyMsg).
Proof.
  unfold expected_reply, select. intros Hnone.
  destruct (decide (matches cmdMsg notifyMsg)) as [Hm|Hm].
  - rewrite (handleNotifyMsg_match _ Hm).
    destruct (Unmarshal _ _) as [n|err]; [discriminate|]. eauto.
  - rewrite (handleNotifyMsg_mismatch _ Hm). eauto.
Qed.

Lemma run_unanswered (pre : list Event) :
  Forall (unanswered p start cmdMsg) pre ->
  ∀ l : Listener Command, goroutine l = AtSelect ->
    ∃ l', run p start cmdMsg l pre = Some l'
          ∧ goroutine l' = AtSelect ∧ buffer l' = buffer l
          ∧ closed l' = closed l ∧ received l' = received l
          ∧ sent (trace l') = sent (trace l).
Proof.
  induction 1 as [|ev pre Hev _ IH]; intros l Hg; simpl.
  - eauto 10.
  - destruct ev as [[now err|notifyMsg|now]|]; simpl in Hev; try contradiction.
    rewrite (step_select _ _ Hg).
    destruct (select_unanswered l notifyMsg Hev) as (e & -> & He).
    destruct (IH (add_trace [e; Ack notifyMsg] l) Hg)
      as (l' & Hrun & ? & ? & ? & ? & Hsent).
    exists l'. repeat split; try assumption.
    rewrite Hsent. simpl. rewrite sent_app.
    destruct He as [-> | ->]; simpl; apply app_nil_r.
Qed.

Ltac solve_lists Hrb Hes :=
  simpl in Hrb; rewrite ?app_nil_r in Hrb;
  rewrite ?sent_app, ?Hes; simpl; rewrite ?app_nil_r, <- ?Hrb, <- ?app_assoc;
  simpl; rewrite ?app_nil_r; reflexivity.

Lemma expected_next (c : SelectCase) (reply : CommandReply) :
  expected_reply p start cmdMsg c = Some (reply, Return) ->
  is_timeout reply = true.
Proof.
  destruct c as [now err|m|now]; simpl; try (intros [= <-]; reflexivity).
  destruct (decide _); [|discriminate].
  destruct (Unmarshal _ _); discriminate.
Qed.

(** [select] builds the reply that [expected_reply] describes, after the
    effects of handling the notification, none of which is a send. *)
Lemma select_answered (c : SelectCase) (reply : CommandReply) (next : Next)
    (l : Listener Command) :
  expected_reply p start cmdMsg c = Some (reply, next) ->
  ∃ es, sent es = [] ∧
        select p start cmdMsg c l =
          send reply next
            {| goroutine := goroutine l; buffer := buffer l; closed := closed l;
               trace := trace l ++ es; received := received l |}.
Proof.
  destruct c as [now err|m|now]; simpl.
  - intros [= <- <-]. exists []. split; [reflexivity|].
    rewrite app_nil_r. destruct l; reflexivity.
  - destruct (decide (matches cmdMsg m)) as [Hm|Hm]; [|discriminate].
    rewrite (handleNotifyMsg_match _ Hm).
    destruct (Unmarshal _ _) as [n|err]; [|discriminate].
    intros [= <- <-]. exists [CallUnmarshal m; Ack m]. split; [reflexivity|].
    destruct (HasError n); reflexivity.
  - intros [= <- <-]. exists []. split; [reflexivity|].
    rewrite app_nil_r. destruct l; reflexivity.
Qed.

Lemma spawned_consistent : consistent (@spawned Command).
Proof.
  split; simpl; try discriminate; try reflexivity; try lia.
  split; discriminate.
Qed.

Lemma step_consistent (l l' : Listener Command) (ev : Event) :
  consistent l ->
  step p start cmdMsg l ev = Some l' ->
  consistent l' ∧ built l' = built l ++ expected_replies p start cmdMsg [ev].
Proof.
  intros [Hrb Hbb Hfull Hbt Hcl Hret] Hstep.
  destruct l as [g b cl t rc]. unfold built, pending, replyChanCapacity in *.
  simpl in Hrb, Hbb, Hfull, Hbt, Hcl, Hret.
  destruct ev as [c|].
  - (* a select case fires *)
    pose proof (step_at_select _ _ _ Hstep) as Hg. simpl in Hg. subst g.
    rewrite step_select in Hstep by reflexivity. injection Hstep as <-.
    unfold expected_replies. cbn [omap list_omap].
    destruct (expected_reply p start cmdMsg c) as [[reply next]|] eqn:Hexp.
    + destruct (select_answered c reply next
                  {| goroutine := AtSelect; buffer := b; closed := cl;
                     trace := t; received := rc |} Hexp) as (es & Hes & ->).
      cbn [goroutine buffer closed trace received].
      unfold send, replyChanCapacity. cbn [buffer].
      destruct b as [|x [|y b]]; simpl in Hbb; try lia.
      * (* room in the buffer: the send completes *)
        destruct next; (split; [split|]); simpl; try discriminate; try lia;
          try exact Hcl; try (split; reflexivity); try solve_lists Hrb Hes.
        intros _. exists (t ++ es), reply. rewrite <- app_assoc.
        split; [reflexivity | exact (expected_next _ _ Hexp)].
      * (* the buffer is full: the send blocks *)
        (split; [split|]); simpl; try discriminate; try lia;
          try solve_lists Hrb Hes.
        -- intros r [= -> ->]. exact (expected_next _ _ Hexp).
        -- rewrite Hcl. split; discriminate.
    + destruct c as [now err|m|now]; try discriminate.
      destruct (select_unanswered
                  {| goroutine := AtSelect; buffer := b; closed := cl;
                     trace := t; received := rc |} m Hexp) as (e & -> & He).
      assert (Hs : sent [e; Ack m] = []) by (destruct He as [-> | ->]; reflexivity).
      (split; [split|]); simpl; try discriminate; try lia; try assumption;
        try solve_lists Hrb Hs.
  - (* the reader receives *)
    unfold expected_replies. cbn [omap list_omap]. rewrite app_nil_r.
    assert (Hes : sent (@nil (Effect Command)) = []) by reflexivity.
    simpl in Hstep. destruct b as [|x [|y b]]; simpl in Hbb; try lia.
    + destruct cl; [|discriminate]. injection Hstep as <-.
      split; [split; assumption|reflexivity].
    + destruct g as [|pend next|]; injection Hstep as <-.
      * (split; [split|]); simpl; try discriminate; try lia; try assumption;
          try solve_lists Hrb Hes.
      * unfold send, replyChanCapacity. simpl.
        destruct next; (split; [split|]); simpl; try discriminate; try lia;
          try (split; reflexivity); try solve_lists Hrb Hes.
        -- rewrite Hcl. split; discriminate.
        -- intros _. exists t, pend. rewrite <- app_assoc.
           split; [reflexivity | exact (Hbt _ eq_refl)].
      * (split; [split|]); simpl; try discriminate; try lia; try assumption;
          try solve_lists Hrb Hes.
Qed.

Lemma expected_replies_cons (ev : Event) (evs : list Event) :
  expected_replies p start cmdMsg (ev :: evs) =
    expected_replies p start cmdMsg [ev] ++ expected_replies p start cmdMsg evs.
Proof. apply (omap_app _ [ev] evs). Qed.

Lemma run_consistent (evs : list Event) :
  ∀ l l' : Listener Command,
    consistent l ->
    run p start cmdMsg l evs = Some l' ->
    consistent l' ∧ built l' = built l ++ expected_replies p start cmdMsg evs.
Proof.
  induction evs as [|ev evs IH]; intros l l' Hl Hrun; simpl in Hrun.
  - injection Hrun as <-. split; [assumption|]. symmetry. apply app_nil_r.
  - destruct (step p start cmdMsg l ev) as [l1|] eqn:Hstep; [|discriminate].
    destruct (step_consistent _ _ _ Hl Hstep) as [Hl1 Hb1].
    destruct (IH _ _ Hl1 Hrun) as [Hl' Hb'].
    split; [assumption|].
    rewrite (expected_replies_cons ev evs), app_assoc, <- Hb1. exact Hb'.
Qed.

(** C1, as amended. The listener builds one reply for every [select] case
    that calls for one, in order: one per notification that matches and
    decodes, not at most one.  Upon such a notification, with room in the
    channel, it writes the reply and goes back to its [select]; the
    channel stays open.  It returns only after writing a timeout reply,
    and the channel is closed exactly when it has returned, right after
    that reply. *)
Theorem listener_replies_to_every_answered_notification
    (evs : list Event) (l : Listener Command) :
  run p start cmdMsg spawned evs = Some l ->
  sent (trace l) ++ pending l = expected_replies p start cmdMsg evs
  ∧ received l ++ buffer l = sent (trace l)
  ∧ (closed l = true ↔ goroutine l = Returned)
  ∧ (goroutine l = Returned ->
     ∃ t reply, trace l = t ++ [ChanSend reply; Cancel; ChanClose]
                ∧ is_timeout reply = true)
  ∧ ∀ notifyMsg reply next,
      goroutine l = AtSelect -> buffer l = [] ->
      expected_reply p start cmdMsg (NotifyMsg notifyMsg) = Some (reply, next) ->
      ∃ l', step p start cmdMsg l (Select (NotifyMsg notifyMsg)) = Some l'
            ∧ sent (trace l') = sent (trace l) ++ [reply]
            ∧ buffer l' = [reply]
            ∧ goroutine l' = AtSelect
            ∧ closed l' = false.
Proof.
  intros Hrun.
  destruct (run_consistent evs _ _ spawned_consistent Hrun) as [Hl Hb].
  split_and!.
  - exact Hb.
  - apply Hl.
  - apply Hl.
  - apply Hl.
  - intros notifyMsg reply next Hg Hbuf Hexp.
    assert (Hcl : closed l = false).
    { destruct (closed l) eqn:E; [|reflexivity].
      apply (closed_iff_returned _ Hl) in E. congruence. }
    exists (select p start cmdMsg (NotifyMsg notifyMsg) l).
    split; [apply step_select, Hg|].
    destruct (select_answered _ _ _ l Hexp) as (es & Hes & ->).
    assert (next = Continue) as ->.
    { simpl in Hexp. destruct (decide _); [|discriminate].
      destruct (Unmarshal _ _); [|discriminate]. congruence. }
    unfold send. cbn [buffer]. rewrite Hbuf. simpl.
    rewrite !sent_app, Hes, app_nil_r. auto.
Qed.

(** C9, as amended. The reply channel has capacity exactly one.  A send
    completes without waiting exactly when the reader has taken out every
    reply written before, which holds for the first reply of every
    listener; otherwise the channel is full, the listener blocks in the
    send, and in both cases the reply is in the channel once the reader
    has received. *)
Theorem send_waits_exactly_on_an_unread_reply
    (evs : list Event) (l l' : Listener Command)
    (c : SelectCase) (reply : CommandReply) (next : Next) :
  run p start cmdMsg spawned evs = Some l ->
  step p start cmdMsg l (Select c) = Some l' ->
  expected_reply p start cmdMsg c = Some (reply, next) ->
  replyChanCapacity = 1%nat
  ∧ (sent (trace l) = [] -> received l = sent (trace l))
  ∧ (received l = sent (trace l) ->
     sent (trace l') = sent (trace l) ++ [reply] ∧ pending l' = [])
  ∧ (received l ≠ sent (trace l) ->
     sent (trace l') = sent (trace l) ∧ goroutine l' = AtSend reply next)
  ∧ ∃ l2, step p start cmdMsg l' Receive = Some l2
          ∧ sent (trace l2) = sent (trace l) ++ [reply]
          ∧ pending l2 = [].
Proof.
  intros Hrun Hstep Hexp.
  destruct (run_consistent evs _ _ spawned_consistent Hrun) as [Hl _].
  pose proof (step_at_select _ _ _ Hstep) as Hg.
  rewrite (step_select _ _ Hg) in Hstep. injection Hstep as <-.
  destruct (select_answered _ _ _ l Hexp) as (es & Hes & ->).
  destruct Hl as [Hrb Hbb _ _ _ _].
  destruct l as [g b cl t rc]. simpl in *. subst g.
  unfold send, replyChanCapacity in *. cbn [buffer].
  split; [reflexivity|].
  split. { intros Hs. rewrite Hs in *. destruct rc; [reflexivity|discriminate]. }
  destruct b as [|x [|y b]]; simpl in Hbb; try lia.
  - rewrite app_nil_r in Hrb. subst rc.
    split_and!.
    + intros _. destruct next; simpl; rewrite !sent_app, Hes, ?app_nil_r; auto.
    + congruence.
    + destruct next; simpl; eexists; (split; [reflexivity|]); simpl;
        rewrite !sent_app, Hes, ?app_nil_r; simpl; rewrite ?app_nil_r; auto.
  - assert (Hne : rc ≠ sent t).
    { intros E. apply (f_equal length) in Hrb. rewrite E, length_app in Hrb.
      simpl in Hrb. lia. }
    split_and!.
    + congruence.
    + intros _. simpl. rewrite sent_app, Hes, app_nil_r. auto.
    + simpl. unfold send, replyChanCapacity. simpl.
      destruct next; simpl; eexists; (split; [reflexivity|]); simpl;
        rewrite !sent_app, Hes, ?app_nil_r; simpl; rewrite ?app_nil_r; auto.
Qed.

(** C3. A notification whose handled-command-id metadata differs from the
    UUID of the command is acknowledged, no reply is written to the reply
    channel, and the listener goes back to its [select]: it has not
    returned, the channel is not closed by this step, and every [select]
    case can fire next. *)
Theorem mismatched_notification_is_skipped
    (l l' : Listener Command) (notifyMsg : Message) :
  step p start cmdMsg l (Select (NotifyMsg notifyMsg)) = Some l' ->
  Get (Metadata notifyMsg) handledCommandUuidMetadataKey ≠ UUID cmdMsg ->
  trace l' = trace l ++
    [LogDebug "Received notify message with different command UUID"; Ack notifyMsg]
  ∧ sent (trace l') = sent (trace l)
  ∧ buffer l' = buffer l
  ∧ received l' = received l
  ∧ closed l' = closed l
  ∧ goroutine l' = AtSelect
  ∧ ∀ c, is_Some (step p start cmdMsg l' (Select c)).
Proof.
  intros Hstep Hne.
  pose proof (step_at_select _ _ _ Hstep) as Hg.
  rewrite (step_select _ _ Hg) in Hstep. injection Hstep as <-.
  unfold select. rewrite (handleNotifyMsg_mismatch notifyMsg Hne).
  split_and!; try reflexivity; try exact Hg.
  - cbn [add_trace trace]. rewrite sent_app. apply app_nil_r.
  - intros c. rewrite step_select; [eauto | exact Hg].
Qed.

(** C10. A notification that matches the UUID of the command but whose
    payload does not unmarshal is acknowledged; the unmarshal error goes
    nowhere: nothing is logged, no reply is written, and the listener goes
    back to its [select]. *)
Theorem undecodable_notification_is_dropped
    (l l' : Listener Command) (notifyMsg : Message) (err : error) :
  step p start cmdMsg l (Select (NotifyMsg notifyMsg)) = Some l' ->
  Get (Metadata notifyMsg) handledCommandUuidMetadataKey = UUID cmdMsg ->
  Unmarshal (Marshaler (config p)) notifyMsg = inr err ->
  handleNotifyMsg p notifyMsg (UUID cmdMsg) =
    ((false, Some (Wrap err "cannot unmarshal request reply notification")),
     [CallUnmarshal notifyMsg; Ack notifyMsg])
  ∧ trace l' = trace l ++ [CallUnmarshal notifyMsg; Ack notifyMsg]
  ∧ sent (trace l') = sent (trace l)
  ∧ buffer l' = buffer l
  ∧ received l' = received l
  ∧ closed l' = closed l
  ∧ goroutine l' = AtSelect
  ∧ ∀ c, is_Some (step p start cmdMsg l' (Select c)).
Proof.
  intros Hstep Hm Hun.
  pose proof (step_at_select _ _ _ Hstep) as Hg.
  rewrite (step_select _ _ Hg) in Hstep. injection Hstep as <-.
  unfold select. rewrite (handleNotifyMsg_match notifyMsg Hm), Hun.
  split_and!; try reflexivity; try exact Hg.
  - cbn [add_trace trace]. rewrite sent_app. apply app_nil_r.
  - intros c. rewrite step_select; [eauto | exact Hg].
Qed.

Lemma Since_at_least (now created : time.Time) (d : time.Duration) :
  d ≤ time.maxDuration -> start ≤ created -> created + d ≤ now ->
  d ≤ time.Since now start.
Proof.
  unfold time.Since, time.Sub, time.maxDuration, time.minDuration.
  intros Hd Hs Hn.
  destruct (Z.ltb_spec (now - start) (- 2 ^ 63)); [lia|].
  destruct (Z.ltb_spec (2 ^ 63 - 1) (now - start)); lia.
Qed.

(** C4. When the context expires, or the subscription channel is closed,
    before any notification that calls for a reply, the listener writes
    exactly one reply, a timeout error with the elapsed time since the
    start of [ListenForReply] and the cause; it then cancels its context,
    closes the channel and returns.  The reader receives that reply and
    nothing else.  With a configured bound [d], a context created no
    earlier than [start] and an expiry no earlier than the deadline, the
    elapsed time is at least [d]. *)
Theorem expiry_gives_one_timeout_reply
    (pre : list Event) (c : SelectCase) (now : time.Time) (cause : error) :
  Forall (unanswered p start cmdMsg) pre ->
  expiry c = Some (now, cause) ->
  ∃ l l2 t,
    run p start cmdMsg spawned (pre ++ [Select c]) = Some l
    ∧ sent (trace l) = [timeoutReply start now cause]
    ∧ Err (timeoutReply start now cause)
      = Some (ReplyTimeoutError (time.Since now start) cause)
    ∧ trace l = t ++ [ChanSend (timeoutReply start now cause); Cancel; ChanClose]
    ∧ buffer l = [timeoutReply start now cause]
    ∧ closed l = true
    ∧ goroutine l = Returned
    ∧ run p start cmdMsg spawned (pre ++ [Select c; Receive; Receive]) = Some l2
    ∧ received l2 = [timeoutReply start now cause]
    ∧ buffer l2 = []
    ∧ ∀ created d,
        ListenForReplyTimeout (config p) = Some d ->
        d ≤ time.maxDuration -> start ≤ created -> created + d ≤ now ->
        d ≤ time.Since now start.
Proof.
  intros Hpre Hc.
  destruct (run_unanswered pre Hpre spawned eq_refl)
    as (l0 & Hrun & Hg & Hbuf & Hcl & Hrecv & Hsent).
  destruct l0 as [g b cl t r]; simpl in Hg, Hbuf, Hcl, Hrecv, Hsent; subst.
  set (reply := timeoutReply start now cause).
  set (l0 := {| goroutine := AtSelect; buffer := []; closed := false;
                trace := t; received := [] |}) in *.
  assert (Hsel : select p start cmdMsg c l0 =
            {| goroutine := Returned; buffer := [reply]; closed := true;
               trace := (t ++ [ChanSend reply]) ++ [Cancel; ChanClose];
               received := [] |}).
  { destruct c as [now' err|m|now']; simpl in Hc; try discriminate;
      injection Hc as <- <-; reflexivity. }
  exists (select p start cmdMsg c l0),
         {| goroutine := Returned; buffer := []; closed := true;
            trace := (t ++ [ChanSend reply]) ++ [Cancel; ChanClose];
            received := [reply] |}, t.
  split_and!.
  - rewrite run_app, Hrun. cbn [run].
    rewrite (step_select l0 c eq_refl). reflexivity.
  - rewrite Hsel. cbn [trace]. rewrite !sent_app, Hsent. reflexivity.
  - reflexivity.
  - rewrite Hsel. cbn [trace]. rewrite <- app_assoc. reflexivity.
  - rewrite Hsel. reflexivity.
  - rewrite Hsel. reflexivity.
  - rewrite Hsel. reflexivity.
  - rewrite run_app, Hrun. cbn [run].
    rewrite (step_select l0 c eq_refl), Hsel. reflexivity.
  - reflexivity.
  - reflexivity.
  - intros created d _. apply Since_at_least.
Qed.

End Facts.

Import fixtures.

(** C1: with two matching notifications and a reader in between, the
    listener has written two replies, is back in its [select] and has not
    closed the channel. *)
Lemma listener_goes_on_after_a_reply : ¬ single_reply backend 0 command.
Proof.
  intros H.
  destruct (H [Select (NotifyMsg succeeded); Receive; Select (NotifyMsg failed)]
              _ eq_refl) as [Hlen _].
  vm_compute in Hlen. lia.
Qed.

(** C9: with two matching notifications and no reader, the second send
    finds the channel full and waits. *)
Lemma second_send_blocks : ¬ never_blocks backend 0 command.
Proof.
  intros H.
  specialize (H [Select (NotifyMsg succeeded); Select (NotifyMsg failed)] _ eq_refl).
  vm_compute in H. discriminate.
Qed.

Lemma listener_replies_to_every_answered_notification_witness :
  ∃ l, run backend 0 command spawned
         [Select (NotifyMsg succeeded); Receive; Select (NotifyMsg failed)] = Some l
       ∧ sent (trace l) ++ pending l =
           expected_replies backend 0 command
             [Select (NotifyMsg succeeded); Receive; Select (NotifyMsg failed)]
       ∧ (closed l = true ↔ goroutine l = Returned).
Proof.
  eexists. split; [reflexivity|].
  destruct (listener_replies_to_every_answered_notification backend 0 command
              [Select (NotifyMsg succeeded); Receive; Select (NotifyMsg failed)]
              _ eq_refl) as (H1 & _ & H3 & _).
  split; [exact H1 | exact H3].
Defined.

Lemma send_waits_exactly_on_an_unread_reply_witness :
  ∃ l l' reply,
    run backend 0 command spawned [Select (NotifyMsg succeeded)] = Some l
    ∧ step backend 0 command l (Select (NotifyMsg failed)) = Some l'
    ∧ expected_reply backend 0 command (NotifyMsg failed) = Some (reply, Continue)
    ∧ (received l ≠ sent (trace l) ->
       sent (trace l') = sent (trace l) ∧ goroutine l' = AtSend reply Continue).
Proof.
  eexists _, _, _.
  split; [reflexivity|]. split; [reflexivity|]. split; [reflexivity|].
  apply (send_waits_exactly_on_an_unread_reply backend 0 command
           [Select (NotifyMsg succeeded)] _ _ (NotifyMsg failed) _ Continue
           eq_refl eq_refl eq_refl).
Defined.

Lemma mismatched_notification_is_skipped_witness :
  let l' := select backend 0 command (NotifyMsg foreign) spawned in
  step backend 0 command spawned (Select (NotifyMsg foreign)) = Some l'
  ∧ Get (Metadata foreign) handledCommandUuidMetadataKey ≠ UUID command
  ∧ sent (trace l') = sent (trace (@spawned unit))
  ∧ goroutine l' = AtSelect.
Proof.
  intros l'.
  assert (Hne : Get (Metadata foreign) handledCommandUuidMetadataKey ≠ UUID command)
    by (vm_compute; discriminate).
  split; [reflexivity|]. split; [exact Hne|].
  destruct (mismatched_notification_is_skipped backend 0 command spawned l' foreign
              eq_refl Hne) as (_ & H2 & _ & _ & _ & H6 & _).
  split; [exact H2 | exact H6].
Defined.

Lemma undecodable_notification_is_dropped_witness :
  let l' := select backend 0 command (NotifyMsg garbled) spawned in
  step backend 0 command spawned (Select (NotifyMsg garbled)) = Some l'
  ∧ Get (Metadata garbled) handledCommandUuidMetadataKey = UUID command
  ∧ Unmarshal (Marshaler (config backend)) garbled
    = inr (errorString "malformed notification")
  ∧ sent (trace l') = sent (trace (@spawned unit))
  ∧ goroutine l' = AtSelect.
Proof.
  intros l'.
  split; [reflexivity|]. split; [reflexivity|]. split; [reflexivity|].
  destruct (undecodable_notification_is_dropped backend 0 command spawned l' garbled
              (errorString "malformed notification") eq_refl eq_refl eq_refl)
    as (_ & _ & H3 & _ & _ & _ & H7 & _).
  split; [exact H3 | exact H7].
Defined.

Lemma expiry_gives_one_timeout_reply_witness :
  ∃ l, run backend 0 command spawned
         [Select (NotifyMsg foreign); Select (NotifyMsg garbled);
          Select (CtxDone 60 DeadlineExceeded)] = Some l
       ∧ sent (trace l) = [timeoutReply 0 60 DeadlineExceeded]
       ∧ closed l = true
       ∧ 50 ≤ time.Since 60 0.
Proof.
  destruct (expiry_gives_one_timeout_reply backend 0 command
              [Select (NotifyMsg foreign); Select (NotifyMsg garbled)]
              (CtxDone 60 DeadlineExceeded) 60 DeadlineExceeded)
    as (l & l2 & t & H1 & H2 & _ & _ & _ & H6 & _ & _ & _ & _ & Hd).
  - repeat constructor.
  - reflexivity.
  - exists l. split; [exact H1|]. split; [exact H2|]. split; [exact H6|].
    apply (Hd 5 50); [reflexivity | vm_compute; discriminate | lia | lia].
Defined.

End listener_facts.

(** ** The notification sent by the handler side *)

Module notification_facts.
Import errors message effects cqrs observe.
Import listener_facts.

Section Facts.

Context {Command : Type}.
Variable p : PubSubRequestReply Command.

Lemma Get_Set (m : gmap string string) (key value : string) :
  Get (Set_ m key value) key = value.
Proof. unfold Get, Set_. rewrite lookup_insert_eq. reflexivity. Qed.

(** C8. When the metadata of the command message does not carry the value
    "1" under [_watermill_notify_when_executed], [OnCommandProcessed]
    returns nil after one debug line: it marshals nothing and publishes
    nothing.  A message that went through
    [ModifyCommandMessageBeforePublish] carries the marker. *)
Theorem OnCommandProcessed_without_marker
    (cmdMsg : Message) (cmd : Command) (handleErr : option error) :
  Get (Metadata cmdMsg) notifyWhenExecutedMetadataKey ≠ "1" ->
  OnCommandProcessed p cmdMsg cmd handleErr =
    (None,
     [LogDebug "RequestReply is enabled, but _watermill_notify_when_executed is missing"])
  ∧ (∀ v, ¬ In (CallMarshal v) (snd (OnCommandProcessed p cmdMsg cmd handleErr)))
  ∧ (∀ topic msg,
       ¬ In (CallPublish topic msg) (snd (OnCommandProcessed p cmdMsg cmd handleErr)))
  ∧ Get (Metadata (fst (ModifyCommandMessageBeforePublish p cmdMsg cmd)))
        notifyWhenExecutedMetadataKey = "1".
Proof.
  intros Hne.
  assert (H : OnCommandProcessed p cmdMsg cmd handleErr =
                (None,
                 [LogDebug "RequestReply is enabled, but _watermill_notify_when_executed is missing"])).
  { unfold OnCommandProcessed. destruct (decide _); [contradiction|reflexivity]. }
  rewrite H. split_and!.
  - reflexivity.
  - intros v [E|[]]. discriminate.
  - intros topic msg [E|[]]. discriminate.
  - apply Get_Set.
Qed.

(** What a successful [OnCommandProcessed] on a marked command message
    does: it marshals the notification of the handler outcome and
    publishes, last, a message with the marshaled payload (unless a hook
    changes it) stamped with the UUID of the command message. *)
Lemma OnCommandProcessed_publishes
    (cmdMsg : Message) (cmd : Command) (handleErr : option error)
    (effs : list (Effect Command)) :
  Get (Metadata cmdMsg) notifyWhenExecutedMetadataKey = "1" ->
  OnCommandProcessed p cmdMsg cmd handleErr = (None, effs) ->
  ∃ marshaled stamped topic notificationMsg,
    Marshal (Marshaler (config p)) (notificationOf handleErr) = inl marshaled
    ∧ stamped = SetMetadata (SetContext marshaled (Context_ cmdMsg))
                  handledCommandUuidMetadataKey (UUID cmdMsg)
    ∧ match ModifyNotificationMessage (config p) with
      | Some modify => modify stamped handleErr = (notificationMsg, None)
      | None => notificationMsg = stamped
      end
    ∧ effs = [LogDebug "Sending request reply";
              CallMarshal (notificationOf handleErr)]
             ++ match ModifyNotificationMessage (config p) with
                | Some _ => [CallModifyNotificationMessage stamped handleErr]
                | None => []
                end
             ++ [CallGenerateReplyNotificationTopic
                   {| tg_CommandUUID := UUID cmdMsg; tg_CommandMessage := cmdMsg;
                      tg_Command := cmd |};
                 CallPublish topic notificationMsg]
    ∧ Publisher (config p) topic notificationMsg = None.
Proof.
  intros Hmark. unfold OnCommandProcessed.
  destruct (decide _) as [_|Hn]; [|contradiction].
  replace (match handleErr with
           | Some e => {| Error := errors.Error e; HasError := true |}
           | None => {| Error := ""; HasError := false |}
           end) with (notificationOf handleErr) by reflexivity.
  run_effects.
  destruct (Marshal _ _) as [marshaled|err]; [|discriminate].
  set (stamped := SetMetadata (SetContext marshaled (Context_ cmdMsg))
                    handledCommandUuidMetadataKey (UUID cmdMsg)).
  destruct (ModifyNotificationMessage (config p)) as [modify|].
  - destruct (modify stamped handleErr) as [msg' [err|]] eqn:Hmod; simpl;
      [discriminate|].
    destruct (GenerateReplyNotificationTopic _ _) as [topic|err]; simpl;
      [|discriminate].
    destruct (Publisher _ topic msg') eqn:Hpub; simpl; [discriminate|].
    intros [= <-]. exists marshaled, stamped, topic, msg'.
    split_and!; try reflexivity; try assumption.
  - simpl.
    destruct (GenerateReplyNotificationTopic _ _) as [topic|err]; simpl;
      [|discriminate].
    destruct (Publisher _ topic stamped) eqn:Hpub; simpl; [discriminate|].
    intros [= <-]. exists marshaled, stamped, topic, stamped.
    split_and!; try reflexivity; try assumption.
Qed.

(** C5, as amended. The outcome of the handler reaches the caller
    unchanged when the marshaler round-trips the notification and the
    [ModifyNotificationMessage] hook, if one is configured, keeps the
    payload and the handled-command-id of the message it is given.  For a
    handler error [e], [OnCommandProcessed] marshals a notification with
    the error flag set and the message [e.Error()]; for a success, one
    without flag.  The listener of that command, waiting in its [select],
    accepts the published message and builds a reply whose error is a
    [CommandHandlerError] around exactly that message, or no error on
    success; it writes the reply at once when the channel is empty, and
    otherwise as soon as the reader has received. *)
Theorem handler_outcome_round_trips
    (start : time.Time) (cmdMsg : Message) (cmd : Command)
    (handleErr : option error) (effs : list (Effect Command))
    (evs : list Event) (l : Listener Command) :
  roundtrips (Marshaler (config p)) ->
  (∀ modify, ModifyNotificationMessage (config p) = Some modify ->
             keeps_notification modify) ->
  Get (Metadata cmdMsg) notifyWhenExecutedMetadataKey = "1" ->
  OnCommandProcessed p cmdMsg cmd handleErr = (None, effs) ->
  run p start cmdMsg spawned evs = Some l ->
  goroutine l = AtSelect ->
  ∃ topic notificationMsg l' l2,
    In (CallMarshal (notificationOf handleErr)) effs
    ∧ last effs = Some (CallPublish topic notificationMsg)
    ∧ Unmarshal (Marshaler (config p)) notificationMsg
      = inl (notificationOf handleErr)
    ∧ fst (handleNotifyMsg p notificationMsg (UUID cmdMsg))
      = (true, (fun e => errorString (errors.Error e)) <$> handleErr)
    ∧ step p start cmdMsg l (Select (NotifyMsg notificationMsg)) = Some l'
    ∧ sent (trace l') ++ pending l'
      = sent (trace l) ++ [{| ReplyMsg := Some notificationMsg;
                              Err := replyErrorOf handleErr |}]
    ∧ (buffer l = [] ->
       buffer l' = [{| ReplyMsg := Some notificationMsg;
                       Err := replyErrorOf handleErr |}]
       ∧ sent (trace l') = sent (trace l)
                           ++ [{| ReplyMsg := Some notificationMsg;
                                  Err := replyErrorOf handleErr |}]
       ∧ goroutine l' = AtSelect)
    ∧ step p start cmdMsg l' Receive = Some l2
    ∧ sent (trace l2) = sent (trace l)
                        ++ [{| ReplyMsg := Some notificationMsg;
                               Err := replyErrorOf handleErr |}]
    ∧ pending l2 = [].
Proof.
  intros Hrt Hhook Hmark Hrun Hreach Hg.
  destruct (OnCommandProcessed_publishes _ _ _ _ Hmark Hrun)
    as (marshaled & stamped & topic & notificationMsg & HM & Hst & Hmod & Heffs & _).
  assert (Hkeep : Payload notificationMsg = Payload marshaled
                  ∧ matches cmdMsg notificationMsg).
  { unfold matches.
    assert (Hs : Payload stamped = Payload marshaled
                 ∧ Get (Metadata stamped) handledCommandUuidMetadataKey = UUID cmdMsg).
    { subst stamped. split; [reflexivity | apply Get_Set]. }
    destruct (ModifyNotificationMessage (config p)) as [modify|] eqn:Hcfg.
    - destruct (Hhook modify eq_refl _ _ _ Hmod) as [Hp Hk].
      rewrite Hp, Hk. exact Hs.
    - subst notificationMsg. exact Hs. }
  destruct Hkeep as [Hpay Hmatch].
  pose proof (Hrt _ _ HM _ Hpay) as Hun.
  assert (Hh : handleNotifyMsg p notificationMsg (UUID cmdMsg) =
                 ((true, (fun e => errorString (errors.Error e)) <$> handleErr),
                  [CallUnmarshal notificationMsg; Ack notificationMsg])).
  { rewrite (handleNotifyMsg_match p cmdMsg _ Hmatch), Hun.
    destruct handleErr; reflexivity. }
  assert (Herr : CommandHandlerError <$>
                   ((fun e => errorString (errors.Error e)) <$> handleErr)
                 = replyErrorOf handleErr) by (destruct handleErr; reflexivity).
  destruct (run_consistent p start cmdMsg evs _ _ spawned_consistent Hreach)
    as [[_ Hbb _ _ _ _] _].
  assert (Hsel : select p start cmdMsg (NotifyMsg notificationMsg) l =
                   send {| ReplyMsg := Some notificationMsg;
                           Err := replyErrorOf handleErr |} Continue
                     (add_trace [CallUnmarshal notificationMsg; Ack notificationMsg] l)).
  { unfold select. rewrite Hh, Herr. reflexivity. }
  destruct l as [g b cl t rc]. simpl in Hg, Hbb. subst g.
  unfold replyChanCapacity in Hbb.
  destruct b as [|x [|y b]]; simpl in Hbb; try lia.
  - (* the channel is empty: the reply is written at once *)
    eexists topic, notificationMsg, _, _.
    split_and!.
    + rewrite Heffs. simpl. auto.
    + rewrite Heffs. destruct (ModifyNotificationMessage (config p)); reflexivity.
    + exact Hun.
    + rewrite Hh. reflexivity.
    + rewrite step_select by reflexivity. rewrite Hsel. reflexivity.
    + simpl. rewrite !sent_app. simpl. rewrite !app_nil_r. reflexivity.
    + intros _. simpl. rewrite !sent_app. simpl. rewrite !app_nil_r. auto.
    + reflexivity.
    + simpl. rewrite !sent_app. simpl. rewrite !app_nil_r. reflexivity.
    + reflexivity.
  - (* an unread reply is in the channel: the send waits for the reader *)
    eexists topic, notificationMsg, _, _.
    split_and!.
    + rewrite Heffs. simpl. auto.
    + rewrite Heffs. destruct (ModifyNotificationMessage (config p)); reflexivity.
    + exact Hun.
    + rewrite Hh. reflexivity.
    + rewrite step_select by reflexivity. rewrite Hsel. reflexivity.
    + simpl. rewrite !sent_app. simpl. rewrite !app_nil_r. reflexivity.
    + discriminate.
    + reflexivity.
    + simpl. rewrite !sent_app. simpl. rewrite !app_nil_r. reflexivity.
    + reflexivity.
Qed.

End Facts.

Import fixtures.

Lemma flagMarshaler_roundtrips : roundtrips flagMarshaler.
Proof.
  intros v msg [= <-] msg' Hpay. unfold flagMarshaler, Unmarshal, flagUnmarshal.
  rewrite Hpay. simpl. destruct v as [text flag].
  destruct flag; simpl; rewrite String.string_of_list_byte_of_string; reflexivity.
Qed.

Lemma OnCommandProcessed_without_marker_witness :
  Get (Metadata plainCommand) notifyWhenExecutedMetadataKey ≠ "1"
  ∧ OnCommandProcessed backend plainCommand tt (Some (errorString "insufficient funds"))
    = (None,
       [LogDebug "RequestReply is enabled, but _watermill_notify_when_executed is missing"]).
Proof.
  assert (H : Get (Metadata plainCommand) notifyWhenExecutedMetadataKey ≠ "1")
    by (vm_compute; discriminate).
  split; [exact H|].
  apply (OnCommandProcessed_without_marker backend plainCommand tt
           (Some (errorString "insufficient funds")) H).
Defined.

(** C5: the marshaler round-trips, the hook puts a byte in front of the
    payload; the listener of the command takes the published notification,
    cannot decode it and writes no reply. *)
Lemma hook_can_break_the_round_trip :
  ¬ observe_more.outcome_reaches_caller fixtures_more.meddling.
Proof.
  intros H.
  destruct (H flagMarshaler_roundtrips 0 command tt
              (Some (errorString "insufficient funds"))
              (snd (OnCommandProcessed fixtures_more.meddling command tt
                      (Some (errorString "insufficient funds"))))
              _ _ eq_refl eq_refl eq_refl) as (l' & Hstep & Hsent).
  vm_compute in Hstep. injection Hstep as <-.
  vm_compute in Hsent. discriminate.
Qed.

Lemma handler_outcome_round_trips_witness :
  ∃ topic notificationMsg l',
    last (snd (OnCommandProcessed backend command tt
                 (Some (errorString "insufficient funds"))))
      = Some (CallPublish topic notificationMsg)
    ∧ step backend 0 command spawned (Select (NotifyMsg notificationMsg)) = Some l'
    ∧ buffer l' = [{| ReplyMsg := Some notificationMsg;
                      Err := Some (CommandHandlerError (errorString "insufficient funds")) |}].
Proof.
  destruct (handler_outcome_round_trips backend 0 command tt
              (Some (errorString "insufficient funds"))
              (snd (OnCommandProcessed backend command tt
                      (Some (errorString "insufficient funds"))))
              [] spawned)
    as (topic & notificationMsg & l' & l2 & _ & H2 & _ & _ & H5 & _ & H7 & _).
  - exact flagMarshaler_roundtrips.
  - intros modify [=].
  - reflexivity.
  - reflexivity.
  - reflexivity.
  - reflexivity.
  - exists topic, notificationMsg, l'. split; [exact H2|]. split; [exact H5|].
    apply H7. reflexivity.
Defined.

End notification_facts.

(** ** The command bus side and the handlers *)

Module bus_facts.
Import errors message effects requestreply observe_bus.

Section Facts.

Context {Command Result Chan : Type}.
Variables (OperationIDMetadataKey operationID : string).
Variables (ctx : ContextT) (c : CommandBus Command)
          (backend : Backend Command Result Chan) (cmd : Command).

(** C2. A failed setup leaves nothing behind.  When
    [ListenForNotifications] fails, the command bus is never called, the
    context is cancelled by the deferred function and the wrapped error is
    returned; when the send fails after a successful listen, the context
    the listener was started on is cancelled and the wrapped error is
    returned.  In both cases no channel is returned. *)
Theorem SendWithReply_setup_failure :
  (∀ err,
     ListenForNotifications backend (cancelCtx ctx)
       {| lp_Command := cmd; lp_OperationID := operationID |} = inr err ->
     SendWithReply OperationIDMetadataKey operationID ctx c backend cmd =
       ((None, cancelCtx ctx, Some (Wrap err "cannot listen for reply")),
        [WithCancel ctx; NewUUID;
         CallListenForNotifications (cancelCtx ctx)
           {| lp_Command := cmd; lp_OperationID := operationID |};
         Cancel (cancelCtx ctx)])
     ∧ sends (snd (SendWithReply OperationIDMetadataKey operationID ctx c backend cmd)) = []
     ∧ cancels (snd (SendWithReply OperationIDMetadataKey operationID ctx c backend cmd))
       = [cancelCtx ctx])
  ∧ (∀ replyChan err,
       ListenForNotifications backend (cancelCtx ctx)
         {| lp_Command := cmd; lp_OperationID := operationID |} = inl replyChan ->
       SendWithModifiedMessage c (cancelCtx ctx) cmd
         (setOperationID OperationIDMetadataKey operationID) = Some err ->
       SendWithReply OperationIDMetadataKey operationID ctx c backend cmd =
         ((None, cancelCtx ctx, Some (Wrap err "cannot send command")),
          [WithCancel ctx; NewUUID;
           CallListenForNotifications (cancelCtx ctx)
             {| lp_Command := cmd; lp_OperationID := operationID |};
           CallSendWithModifiedMessage (cancelCtx ctx) cmd
             (setOperationID OperationIDMetadataKey operationID);
           Cancel (cancelCtx ctx)])
       ∧ cancels (snd (SendWithReply OperationIDMetadataKey operationID ctx c backend cmd))
         = [cancelCtx ctx]).
Proof.
  split.
  - intros err Hlisten.
    assert (H : SendWithReply OperationIDMetadataKey operationID ctx c backend cmd =
       ((None, cancelCtx ctx, Some (Wrap err "cannot listen for reply")),
        [WithCancel ctx; NewUUID;
         CallListenForNotifications (cancelCtx ctx)
           {| lp_Command := cmd; lp_OperationID := operationID |};
         Cancel (cancelCtx ctx)])).
    { unfold SendWithReply. cbv [mbind mret M_bind M_ret bind ret emit].
      rewrite Hlisten. reflexivity. }
    rewrite H. auto.
  - intros replyChan err Hlisten Hsend.
    assert (H : SendWithReply OperationIDMetadataKey operationID ctx c backend cmd =
         ((None, cancelCtx ctx, Some (Wrap err "cannot send command")),
          [WithCancel ctx; NewUUID;
           CallListenForNotifications (cancelCtx ctx)
             {| lp_Command := cmd; lp_OperationID := operationID |};
           CallSendWithModifiedMessage (cancelCtx ctx) cmd
             (setOperationID OperationIDMetadataKey operationID);
           Cancel (cancelCtx ctx)])).
    { unfold SendWithReply. cbv [mbind mret M_bind M_ret bind ret emit].
      rewrite Hlisten, Hsend. reflexivity. }
    rewrite H. auto.
Qed.

Lemma Get_Set_other (m : gmap string string) (key key' value : string) :
  key' ≠ key -> Get (Set_ m key value) key' = Get m key'.
Proof. intros Hne. unfold Get, Set_. rewrite lookup_insert_ne; [reflexivity|congruence]. Qed.

(** The setup of [ListenForReply]: a listener is started only after
    [Subscribe] has returned without error, and it is the last thing
    [ListenForReply] does; when any step of the setup fails, no listener
    is started. *)
Lemma ListenForReply_subscribes_first
    (p : cqrs.PubSubRequestReply Command) (start : time.Time)
    (cmdMsg : Message) (command : Command) :
  match cqrs.ListenForReply p start cmdMsg command with
  | (inl l, effs) =>
      ∃ subscriber topic,
        cqrs.SubscriberConstructor (cqrs.config p)
          {| cqrs.sc_CommandUUID := UUID cmdMsg; cqrs.sc_CommandMessage := cmdMsg;
             cqrs.sc_Command := command |} = inl subscriber
        ∧ cqrs.GenerateReplyNotificationTopic (cqrs.config p)
            {| cqrs.tg_CommandUUID := UUID cmdMsg; cqrs.tg_CommandMessage := cmdMsg;
               cqrs.tg_Command := command |} = inl topic
        ∧ cqrs.Subscribe subscriber topic = None
        ∧ effs =
            [cqrs.CallSubscriberConstructor
               {| cqrs.sc_CommandUUID := UUID cmdMsg; cqrs.sc_CommandMessage := cmdMsg;
                  cqrs.sc_Command := command |};
             cqrs.CallGenerateReplyNotificationTopic
               {| cqrs.tg_CommandUUID := UUID cmdMsg; cqrs.tg_CommandMessage := cmdMsg;
                  cqrs.tg_Command := command |};
             match cqrs.ListenForReplyTimeout (cqrs.config p) with
             | Some d => cqrs.WithTimeout d
             | None => cqrs.WithCancel
             end;
             cqrs.CallSubscribe topic;
             cqrs.LogDebug "Subscribed to request/reply notifications topic";
             cqrs.MakeChan 1;
             cqrs.Go]
        ∧ l = cqrs.spawned
  | (inr _, effs) => ¬ In cqrs.Go effs
  end.
Proof.
  unfold cqrs.ListenForReply. cbv [mbind mret M_bind M_ret bind ret emit].
  destruct (cqrs.SubscriberConstructor _ _) as [subscriber|err]; simpl.
  - destruct (cqrs.GenerateReplyNotificationTopic _ _) as [topic|err]; simpl.
    + destruct (cqrs.Subscribe subscriber topic) as [err|] eqn:Hsub; simpl.
      * destruct (cqrs.ListenForReplyTimeout _); intros H;
          repeat (destruct H as [H|H]; [discriminate|]); exact H.
      * exists subscriber, topic. auto.
    + intros [H|[H|[]]]; discriminate.
  - intros [H|[]]; discriminate.
Qed.

(** C6. [SendWithReply] works in a fixed order: it takes one fresh UUID
    as operation id, asks the backend to listen for that operation id,
    and only when that succeeded hands the command to the command bus,
    once, with a closure that sets the operation id in the metadata of the
    message and changes nothing else.  On the backend side,
    [ListenForReply] returns a channel only after [Subscribe] has
    returned without error. *)
Theorem SendWithReply_listens_then_sends :
  let params := {| lp_Command := cmd; lp_OperationID := operationID |} in
  let modify := setOperationID OperationIDMetadataKey operationID in
  let result := SendWithReply OperationIDMetadataKey operationID ctx c backend cmd in
  (∃ rest,
     snd result = [WithCancel ctx; NewUUID;
                   CallListenForNotifications (cancelCtx ctx) params] ++ rest
     ∧ match ListenForNotifications backend (cancelCtx ctx) params with
       | inr _ => sends rest = []
       | inl replyChan =>
           ∃ rest',
             rest = CallSendWithModifiedMessage (cancelCtx ctx) cmd modify :: rest'
             ∧ sends rest' = []
             ∧ sends (snd result) = [cmd]
             ∧ match SendWithModifiedMessage c (cancelCtx ctx) cmd modify with
               | None => rest' = []
                         ∧ fst result = (Some replyChan, cancelCtx ctx, None)
               | Some _ => rest' = [Cancel (cancelCtx ctx)]
               end
       end)
  ∧ (∀ m,
       snd (modify m) = None
       ∧ Get (Metadata (fst (modify m))) OperationIDMetadataKey = operationID
       ∧ (∀ key, key ≠ OperationIDMetadataKey ->
            Get (Metadata (fst (modify m))) key = Get (Metadata m) key)
       ∧ UUID (fst (modify m)) = UUID m
       ∧ Payload (fst (modify m)) = Payload m)
  ∧ ∀ (p : cqrs.PubSubRequestReply Command) start cmdMsg command,
      match cqrs.ListenForReply p start cmdMsg command with
      | (inl l, effs) =>
          ∃ subscriber topic pre,
            cqrs.SubscriberConstructor (cqrs.config p)
              {| cqrs.sc_CommandUUID := UUID cmdMsg; cqrs.sc_CommandMessage := cmdMsg;
                 cqrs.sc_Command := command |} = inl subscriber
            ∧ cqrs.GenerateReplyNotificationTopic (cqrs.config p)
                {| cqrs.tg_CommandUUID := UUID cmdMsg; cqrs.tg_CommandMessage := cmdMsg;
                   cqrs.tg_Command := command |} = inl topic
            ∧ cqrs.Subscribe subscriber topic = None
            ∧ effs = pre ++ [cqrs.CallSubscribe topic;
                             cqrs.LogDebug "Subscribed to request/reply notifications topic";
                             cqrs.MakeChan 1; cqrs.Go]
            ∧ ¬ In cqrs.Go pre
            ∧ l = cqrs.spawned
      | (inr _, effs) => ¬ In cqrs.Go effs
      end.
Proof.
  intros params modify result. split_and!.
  - subst result. unfold SendWithReply.
    cbv [mbind mret M_bind M_ret bind ret emit].
    fold params. fold modify.
    destruct (ListenForNotifications backend (cancelCtx ctx) params) as [replyChan|err].
    + destruct (SendWithModifiedMessage c (cancelCtx ctx) cmd modify)
        as [err|]; simpl; eexists; (split; [reflexivity|]); eexists;
        (split; [reflexivity|]); auto.
    + simpl. eexists. split; reflexivity.
  - intros m. subst modify. unfold setOperationID. simpl.
    split_and!; try reflexivity.
    + apply notification_facts.Get_Set.
    + intros key Hne. apply Get_Set_other, Hne.
  - intros p start cmdMsg command.
    pose proof (ListenForReply_subscribes_first p start cmdMsg command) as H.
    destruct (cqrs.ListenForReply p start cmdMsg command) as [[l|err] effs];
      [|exact H].
    destruct H as (subscriber & topic & Hcons & Htopic & Hsub & -> & ->).
    exists subscriber, topic. eexists [_; _; _].
    split_and!; try reflexivity; try assumption.
    intros [H|[H|[H|[]]]]; try discriminate.
    destruct (cqrs.ListenForReplyTimeout _); discriminate.
Qed.

(** C7. The handlers built by [NewCommandHandler] and
    [NewCommandHandlerWithResult] run the handle function and then report
    its outcome to the backend exactly once, with the result and the
    error of the handle function, whether it failed or not, and return
    what the backend returns -- provided the original message is found in
    the context.  When it is not found they return an error and the
    backend is not called. *)
Theorem wrapped_handler_reports_once
    (handlerName : string) (pctx : ContextT)
    (unitBackend : Backend Command unit Chan)
    (handleFunc : ContextT -> Command -> option error)
    (handleFuncWithResult : ContextT -> Command -> Result * option error) :
  let plain := Handle (NewCommandHandler handlerName unitBackend handleFunc) pctx cmd in
  let withResult :=
    Handle (NewCommandHandlerWithResult handlerName backend handleFuncWithResult)
           pctx cmd in
  (∀ originalMessage,
     OriginalMessageFromCtx pctx = Some originalMessage ->
     let params :=
       {| op_Command := cmd; op_CommandMessage := originalMessage;
          op_HandlerResult := tt; op_HandleErr := handleFunc pctx cmd |} in
     let paramsWithResult :=
       {| op_Command := cmd; op_CommandMessage := originalMessage;
          op_HandlerResult := fst (handleFuncWithResult pctx cmd);
          op_HandleErr := snd (handleFuncWithResult pctx cmd) |} in
     plain = (OnCommandProcessed unitBackend pctx params,
              [CallHandleFunc pctx cmd; CallOnCommandProcessed pctx params])
     ∧ reports (snd plain) = [params]
     ∧ withResult = (OnCommandProcessed backend pctx paramsWithResult,
                     [CallHandleFunc pctx cmd;
                      CallOnCommandProcessed pctx paramsWithResult])
     ∧ reports (snd withResult) = [paramsWithResult])
  ∧ (OriginalMessageFromCtx pctx = None ->
     (∃ err, plain = (Some err, [CallHandleFunc pctx cmd]))
     ∧ reports (snd plain) = []
     ∧ (∃ err, withResult = (Some err, [CallHandleFunc pctx cmd]))
     ∧ reports (snd withResult) = []).
Proof.
  intros plain withResult. subst plain withResult.
  unfold NewCommandHandler, NewCommandHandlerWithResult, cqrs_NewCommandHandler,
    originalCommandMsgFromCtx.
  cbv [Handle mbind mret M_bind M_ret bind ret emit].
  destruct (handleFuncWithResult pctx cmd) as [resp handlerErr]. simpl.
  split.
  - intros originalMessage ->. simpl. auto.
  - intros ->. simpl. eauto 10.
Qed.

End Facts.

Import fixtures.

Lemma SendWithReply_setup_failure_witness :
  (ListenForNotifications deaf (cancelCtx bare)
     {| lp_Command := tt; lp_OperationID := "uuid-1" |} = inr (errorString "no subscriber")
   ∧ sends (snd (SendWithReply "op_id" "uuid-1" bare bus deaf tt)) = []
   ∧ cancels (snd (SendWithReply "op_id" "uuid-1" bare bus deaf tt)) = [cancelCtx bare])
  ∧ (SendWithModifiedMessage brokenBus (cancelCtx bare) tt (setOperationID "op_id" "uuid-1")
     = Some (errorString "publish failed")
     ∧ fst (SendWithReply "op_id" "uuid-1" bare brokenBus listening tt)
       = (None, cancelCtx bare,
          Some (Wrap (errorString "publish failed") "cannot send command"))
     ∧ cancels (snd (SendWithReply "op_id" "uuid-1" bare brokenBus listening tt))
       = [cancelCtx bare]).
Proof.
  split.
  - split; [reflexivity|].
    apply (proj1 (SendWithReply_setup_failure "op_id" "uuid-1" bare bus deaf tt)
             (errorString "no subscriber") eq_refl).
  - split; [reflexivity|].
    destruct (proj2 (SendWithReply_setup_failure "op_id" "uuid-1" bare brokenBus listening tt)
                1%nat (errorString "publish failed") eq_refl eq_refl) as [H1 H2].
    split; [rewrite H1; reflexivity | exact H2].
Defined.

Lemma SendWithReply_listens_then_sends_witness :
  sends (snd (SendWithReply "op_id" "uuid-1" bare bus listening tt)) = [tt]
  ∧ Get (Metadata (fst (setOperationID "op_id" "uuid-1" plainCommand))) "op_id" = "uuid-1"
  ∧ Get (Metadata (fst (setOperationID "op_id" "uuid-1" command)))
        cqrs.notifyWhenExecutedMetadataKey = "1".
Proof.
  destruct (SendWithReply_listens_then_sends "op_id" "uuid-1" bare bus listening tt)
    as ((rest & _ & rest' & _ & _ & H & _) & Hset & _).
  split; [exact H|]. split.
  - apply (Hset plainCommand).
  - destruct (Hset command) as (_ & _ & Hother & _).
    rewrite Hother; [reflexivity | discriminate].
Defined.

Lemma wrapped_handler_reports_once_witness :
  (OriginalMessageFromCtx processing = Some command
   ∧ reports (snd (Handle (NewCommandHandlerWithResult "handler" listening
                             (fun _ _ => (tt, Some (errorString "insufficient funds"))))
                          processing tt))
     = [{| op_Command := tt; op_CommandMessage := command; op_HandlerResult := tt;
           op_HandleErr := Some (errorString "insufficient funds") |}])
  ∧ (OriginalMessageFromCtx bare = None
     ∧ reports (snd (Handle (NewCommandHandler "handler" listening (fun _ _ => None))
                            bare tt)) = []).
Proof.
  split; (split; [reflexivity|]).
  - apply (proj1 (wrapped_handler_reports_once (Result := unit) listening tt "handler"
                    processing listening (fun _ _ => None)
                    (fun _ _ => (tt, Some (errorString "insufficient funds"))))
                 command eq_refl).
  - apply (proj2 (wrapped_handler_reports_once (Result := unit) listening tt "handler"
                    bare listening (fun _ _ => None)
                    (fun _ _ => (tt, None)))
                 eq_refl).
Defined.

End bus_facts.

(** ** More on the listener *)

Module listener_more_facts.
Import errors message effects cqrs observe observe_more.
Import listener_facts.

Section Facts.

Context {Command : Type}.
Variables (p : PubSubRequestReply Command) (start : time.Time) (cmdMsg : Message).

Lemma acks_app (t1 t2 : list (Effect Command)) : acks (t1 ++ t2) = acks t1 ++ acks t2.
Proof. apply omap_app. Qed.

Lemma unmarshals_app (t1 t2 : list (Effect Command)) :
  unmarshals (t1 ++ t2) = unmarshals t1 ++ unmarshals t2.
Proof. apply omap_app. Qed.

Lemma channel_effects_silent (es : list (Effect Command)) :
  forallb is_channel_effect es = true -> acks es = [] ∧ unmarshals es = [].
Proof.
  induction es as [|e es IH]; simpl; [auto|].
  destruct e; simpl; try discriminate; exact IH.
Qed.

(** The effects of handling one notification. *)
Lemma handleNotifyMsg_effects (notifyMsg : Message) :
  snd (handleNotifyMsg p notifyMsg (UUID cmdMsg)) =
    [if decide (Get (Metadata notifyMsg) handledCommandUuidMetadataKey = UUID cmdMsg)
     then CallUnmarshal notifyMsg
     else LogDebug "Received notify message with different command UUID";
     Ack notifyMsg].
Proof.
  destruct (decide _) as [Hm|Hm].
  - rewrite (handleNotifyMsg_match p cmdMsg _ Hm). reflexivity.
  - rewrite (handleNotifyMsg_mismatch p cmdMsg _ Hm). reflexivity.
Qed.

Lemma send_trace (reply : CommandReply) (next : Next) (l : Listener Command) :
  ∃ es, trace (send reply next l) = trace l ++ es
        ∧ forallb is_channel_effect es = true.
Proof.
  unfold send. destruct (_ <? _)%nat.
  - destruct next; simpl.
    + exists [ChanSend reply]. auto.
    + exists [ChanSend reply; Cancel; ChanClose]. rewrite <- app_assoc. auto.
  - exists []. simpl. rewrite app_nil_r. auto.
Qed.

Lemma step_trace (l l' : Listener Command) (ev : Event) :
  step p start cmdMsg l ev = Some l' ->
  ∃ es, trace l' = trace l ++ handled p cmdMsg ev ++ es
        ∧ forallb is_channel_effect es = true.
Proof.
  destruct ev as [c|]; intros Hstep.
  - pose proof (step_at_select _ _ _ _ _ _ Hstep) as Hg.
    rewrite (step_select _ _ _ _ _ Hg) in Hstep. injection Hstep as <-.
    destruct c as [now err|notifyMsg|now]; simpl.
    + apply send_trace.
    + destruct (handleNotifyMsg p notifyMsg (UUID cmdMsg)) as [[ok herr] effs].
      destruct ok.
      * destruct (send_trace {| ReplyMsg := Some notifyMsg;
                                Err := CommandHandlerError <$> herr |}
                    Continue (add_trace effs l)) as (es & -> & Hes).
        exists es. simpl. rewrite <- app_assoc. auto.
      * exists []. simpl. rewrite app_nil_r. auto.
    + apply send_trace.
  - simpl in Hstep. unfold receive in Hstep.
    destruct (buffer l) as [|reply rest].
    + destruct (closed l); [|discriminate]. injection Hstep as <-.
      exists []. rewrite app_nil_r. auto.
    + injection Hstep as <-.
      destruct (goroutine l) as [|pend next|].
      * exists []. simpl. rewrite app_nil_r. auto.
      * apply (send_trace pend next
                 {| goroutine := AtSend pend next; buffer := rest; closed := closed l;
                    trace := trace l; received := received l ++ [reply] |}).
      * exists []. simpl. rewrite app_nil_r. auto.
Qed.

Lemma run_acks (evs : list Event) :
  ∀ l l' : Listener Command,
    run p start cmdMsg l evs = Some l' ->
    acks (trace l') = acks (trace l) ++ notifications evs
    ∧ unmarshals (trace l') =
        unmarshals (trace l)
        ++ filter (fun m => Get (Metadata m) handledCommandUuidMetadataKey = UUID cmdMsg)
             (notifications evs).
Proof.
  induction evs as [|ev evs IH]; intros l l' Hrun; simpl in Hrun.
  - injection Hrun as <-. simpl. rewrite !app_nil_r. auto.
  - destruct (step p start cmdMsg l ev) as [l1|] eqn:Hstep; [|discriminate].
    destruct (IH _ _ Hrun) as [Ha Hu]. rewrite Ha, Hu.
    destruct (step_trace _ _ _ Hstep) as (es & -> & Hes).
    destruct (channel_effects_silent es Hes) as [Hea Heu].
    rewrite !acks_app, !unmarshals_app, Hea, Heu, !app_nil_r, <- !app_assoc.
    destruct ev as [[now err|notifyMsg|now]|]; simpl; rewrite ?app_nil_r; auto.
    rewrite handleNotifyMsg_effects. rewrite filter_cons.
    destruct (decide _); simpl; auto.
Qed.

(** X1. The listener acknowledges every notification it takes from the
    subscription exactly once and in the order of arrival, whether the
    notification is for its command or not, and it hands to the marshaler
    exactly the notifications whose handled-command-id is the UUID of its
    command. *)
Theorem every_notification_is_acked_once (evs : list Event) (l : Listener Command) :
  run p start cmdMsg spawned evs = Some l ->
  acks (trace l) = notifications evs
  ∧ unmarshals (trace l) =
      filter (fun m => Get (Metadata m) handledCommandUuidMetadataKey = UUID cmdMsg)
        (notifications evs).
Proof.
  intros Hrun. destruct (run_acks evs _ _ Hrun) as [Ha Hu].
  simpl in Ha, Hu. split; assumption.
Qed.

Lemma notifications_elem (evs : list Event) (notifyMsg : Message) :
  Select (NotifyMsg notifyMsg) ∈ evs -> notifyMsg ∈ notifications evs.
Proof.
  intros Hin. unfold notifications. apply list_elem_of_omap.
  exists (Select (NotifyMsg notifyMsg)). auto.
Qed.

(** X2. A listener never delivers another command's outcome.  Every reply
    it writes is either a timeout reply, or carries a notification that it
    took from the subscription, whose handled-command-id is the UUID of its
    command and which the marshaler decoded; the error of the reply is the
    handler error of that notification, or none. *)
Theorem replies_belong_to_the_command
    (evs : list Event) (l : Listener Command) (reply : CommandReply) :
  run p start cmdMsg spawned evs = Some l ->
  reply ∈ sent (trace l) ->
  (∃ now cause, reply = timeoutReply start now cause)
  ∨ (∃ notifyMsg notification,
       ReplyMsg reply = Some notifyMsg
       ∧ notifyMsg ∈ notifications evs
       ∧ Get (Metadata notifyMsg) handledCommandUuidMetadataKey = UUID cmdMsg
       ∧ Unmarshal (Marshaler (config p)) notifyMsg = inl notification
       ∧ Err reply = if HasError notification
                     then Some (CommandHandlerError (errorString (Error notification)))
                     else None).
Proof.
  intros Hrun Hin.
  destruct (run_consistent p start cmdMsg evs _ _ (spawned_consistent) Hrun) as [_ Hb].
  assert (Hex : reply ∈ expected_replies p start cmdMsg evs).
  { unfold built in Hb. simpl in Hb. rewrite <- Hb. apply elem_of_app. auto. }
  unfold expected_replies in Hex. apply list_elem_of_omap in Hex.
  destruct Hex as (ev & Hev & Hreply).
  destruct ev as [c|]; [|discriminate].
  destruct (expected_reply p start cmdMsg c) as [[r next]|] eqn:Hexp; [|discriminate].
  injection Hreply as ->.
  destruct c as [now err|notifyMsg|now]; simpl in Hexp.
  - injection Hexp as <- _. left. eauto.
  - right. destruct (decide (matches cmdMsg notifyMsg)) as [Hm|]; [|discriminate].
    destruct (Unmarshal _ _) as [notification|] eqn:Hun; [|discriminate].
    injection Hexp as <- _. exists notifyMsg, notification.
    split_and!; auto. apply notifications_elem, Hev.
  - injection Hexp as <- _. left. eauto.
Qed.

Lemma answered_is_no_timeout (c : SelectCase) (reply : CommandReply) :
  expected_reply p start cmdMsg c = Some (reply, Continue) -> is_timeout reply = false.
Proof.
  destruct c as [now err|m|now]; simpl; try discriminate.
  destruct (decide _); [|discriminate].
  destruct (Unmarshal _ _) as [n|]; [|discriminate].
  intros [= <-]. unfold is_timeout. simpl. destruct (HasError n); reflexivity.
Qed.

Lemma Forall_snoc {A} (P : A -> Prop) (xs : list A) (x : A) :
  Forall P xs -> P x -> Forall P (xs ++ [x]).
Proof. intros Hxs Hx. apply Forall_app. split; [assumption|]. constructor; auto. Qed.

Lemma send_timeout_last (reply : CommandReply) (next : Next) (es : list (Effect Command))
    (l : Listener Command) :
  sent es = [] ->
  Forall (fun r => is_timeout r = false) (sent (trace l)) ->
  is_timeout reply = match next with Continue => false | Return => true end ->
  timeout_last
    (send reply next
       {| goroutine := goroutine l; buffer := buffer l; closed := closed l;
          trace := trace l ++ es; received := received l |}).
Proof.
  intros Hes Hall Hr. unfold send, timeout_last. cbn [buffer].
  destruct (_ <? _)%nat.
  - destruct next; simpl.
    + rewrite !sent_app, Hes, app_nil_r. simpl. apply Forall_snoc; assumption.
    + exists (sent (trace l)), reply.
      rewrite !sent_app, Hes, app_nil_r. simpl. rewrite app_nil_r. auto.
  - simpl. rewrite sent_app, Hes, app_nil_r. destruct next; auto.
Qed.

Lemma step_timeout_last (l l' : Listener Command) (ev : Event) :
  timeout_last l ->
  step p start cmdMsg l ev = Some l' ->
  timeout_last l'.
Proof.
  intros Hl Hstep. destruct ev as [c|].
  - pose proof (step_at_select _ _ _ _ _ _ Hstep) as Hg.
    rewrite (step_select _ _ _ _ _ Hg) in Hstep. injection Hstep as <-.
    unfold timeout_last in Hl. rewrite Hg in Hl.
    destruct (expected_reply p start cmdMsg c) as [[reply next]|] eqn:Hexp.
    + destruct (select_answered p start cmdMsg c reply next l Hexp) as (es & Hes & ->).
      apply send_timeout_last; [assumption | assumption |].
      destruct next.
      * exact (answered_is_no_timeout _ _ Hexp).
      * exact (expected_next p start cmdMsg _ _ Hexp).
    + destruct c as [now err|m|now]; try discriminate.
      destruct (select_unanswered p start cmdMsg l m Hexp) as (e & -> & He).
      unfold timeout_last. simpl. rewrite Hg, sent_app.
      destruct He as [-> | ->]; simpl; rewrite app_nil_r; exact Hl.
  - simpl in Hstep. unfold receive in Hstep.
    destruct (buffer l) as [|r rest] eqn:Hbuf.
    + destruct (closed l); [|discriminate]. injection Hstep as <-. exact Hl.
    + injection Hstep as <-. unfold timeout_last in Hl.
      destruct (goroutine l) as [|pend next|] eqn:Hg.
      * unfold timeout_last. simpl. exact Hl.
      * pose proof (send_timeout_last pend next []
                      {| goroutine := AtSend pend next; buffer := rest;
                         closed := closed l; trace := trace l;
                         received := received l ++ [r] |} eq_refl) as Hs.
        cbn [goroutine buffer closed trace received] in Hs.
        rewrite app_nil_r in Hs. apply Hs; destruct next; tauto.
      * unfold timeout_last. simpl. exact Hl.
Qed.

Lemma run_timeout_last (evs : list Event) :
  ∀ l l' : Listener Command,
    timeout_last l -> run p start cmdMsg l evs = Some l' -> timeout_last l'.
Proof.
  induction evs as [|ev evs IH]; intros l l' Hl Hrun; simpl in Hrun.
  - injection Hrun as <-. exact Hl.
  - destruct (step p start cmdMsg l ev) as [l1|] eqn:Hstep; [|discriminate].
    exact (IH _ _ (step_timeout_last _ _ _ Hl Hstep) Hrun).
Qed.

(** X3. A timeout reply is final.  Of the replies a listener has built,
    written or still being written, at most the last one is a timeout
    reply; once it is built the listener takes no further notification and
    no second timeout, and while the listener is still selecting no timeout
    reply exists. *)
Theorem timeout_reply_is_final (evs : list Event) (l : Listener Command) :
  run p start cmdMsg spawned evs = Some l ->
  ∃ others tail,
    sent (trace l) ++ pending l = others ++ tail
    ∧ Forall (fun r => is_timeout r = false) others
    ∧ (goroutine l = AtSelect -> tail = [])
    ∧ (tail = []
       ∨ ∃ reply, tail = [reply] ∧ is_timeout reply = true
                  ∧ ∀ c, step p start cmdMsg l (Select c) = None).
Proof.
  intros Hrun.
  assert (H0 : timeout_last (@spawned Command)) by (unfold timeout_last; simpl; constructor).
  pose proof (run_timeout_last evs _ _ H0 Hrun) as Hl.
  unfold timeout_last in Hl. unfold pending. simpl.
  destruct (goroutine l) as [|pend next|] eqn:Hg.
  - exists (sent (trace l)), []. rewrite !app_nil_r. split_and!; auto.
  - destruct next; destruct Hl as [Hall Hp].
    + exists (sent (trace l) ++ [pend]), []. rewrite app_nil_r.
      split_and!; auto. apply Forall_snoc; assumption.
    + exists (sent (trace l)), [pend].
      split_and!; auto; try discriminate. right. exists pend. auto.
  - destruct Hl as (others & reply & Hs & Hall & Hr).
    exists others, [reply]. rewrite app_nil_r.
    split_and!; auto; try discriminate. right. exists reply. auto.
Qed.

End Facts.
End listener_more_facts.

(** ** More on the backend: emission and setup *)

Module backend_more_facts.
Import errors message effects cqrs observe observe_more.
Import listener_facts.

Section Facts.

Context {Command : Type}.
Variable p : PubSubRequestReply Command.




(** X6. [ModifyCommandMessageBeforePublish] only marks the message: it
    never fails, keeps UUID, payload, context and every other metadata key,
    and marking twice is marking once.  For a marked message
    [OnCommandProcessed] never takes the silent path: whatever the metadata
    was before, it goes on to marshal the notification of the handler
    outcome. *)
Theorem ModifyCommandMessageBeforePublish_marks_only
    (cmdMsg : Message) (command cmd : Command) (handleErr : option error) :
  let marked := fst (ModifyCommandMessageBeforePublish p cmdMsg command) in
  snd (ModifyCommandMessageBeforePublish p cmdMsg command) = None
  ∧ UUID marked = UUID cmdMsg
  ∧ Payload marked = Payload cmdMsg
  ∧ Context_ marked = Context_ cmdMsg
  ∧ (∀ key, key ≠ notifyWhenExecutedMetadataKey ->
       Get (Metadata marked) key = Get (Metadata cmdMsg) key)
  ∧ ModifyCommandMessageBeforePublish p marked command = (marked, None)
  ∧ ∃ rest, snd (OnCommandProcessed p marked cmd handleErr) =
              LogDebug "Sending request reply"
              :: CallMarshal (notificationOf handleErr) :: rest.
Proof.
  intros marked. subst marked. unfold ModifyCommandMessageBeforePublish. simpl.
  split_and!; try reflexivity.
  - intros key Hne. unfold Get, Set_. rewrite lookup_insert_ne; [reflexivity|congruence].
  - unfold SetMetadata, Set_. simpl. rewrite insert_insert_eq. reflexivity.
  - unfold OnCommandProcessed. simpl.
    destruct (decide _) as [_|Hn].
    2:{ exfalso. apply Hn. apply notification_facts.Get_Set. }
    replace (match handleErr with
             | Some e => {| Error := errors.Error e; HasError := true |}
             | None => {| Error := ""; HasError := false |}
             end) with (notificationOf handleErr) by reflexivity.
    cbv [mbind mret M_bind M_ret bind ret emit].
    destruct (Marshal _ _) as [marshaled|cause]; [|eauto].
    match goal with
    | |- context [let '(a, t1) := ?m in _] => destruct m as [[msg'|e] t]
    end.
    + destruct (GenerateReplyNotificationTopic _ _) as [topic|cause]; [|simpl; eauto].
      simpl. destruct (Publisher _ _ _); simpl; eauto.
    + simpl. eauto.
Qed.

(** X7. A failed setup of [ListenForReply] starts no listener and leaves
    no context behind.  When the subscriber constructor or the topic
    generator fails, nothing later is called and no context has been
    derived yet; when [Subscribe] fails, the context derived for it is
    cancelled.  Each error is returned wrapped with the name of the
    step. *)
Theorem ListenForReply_failed_setup
    (start : time.Time) (cmdMsg : Message) (command : Command) :
  let scParams :=
    {| sc_CommandUUID := UUID cmdMsg; sc_CommandMessage := cmdMsg;
       sc_Command := command |} in
  let tgParams :=
    {| tg_CommandUUID := UUID cmdMsg; tg_CommandMessage := cmdMsg;
       tg_Command := command |} in
  let derive :=
    match ListenForReplyTimeout (config p) with
    | Some d => WithTimeout d
    | None => WithCancel
    end in
  match SubscriberConstructor (config p) scParams with
  | inr err =>
      ListenForReply p start cmdMsg command =
        (inr (Wrap err "cannot create request/reply notifications subscriber"),
         [CallSubscriberConstructor scParams])
  | inl subscriber =>
      match GenerateReplyNotificationTopic (config p) tgParams with
      | inr err =>
          ListenForReply p start cmdMsg command =
            (inr (Wrap err "cannot generate request/reply notifications topic"),
             [CallSubscriberConstructor scParams;
              CallGenerateReplyNotificationTopic tgParams])
      | inl topic =>
          match Subscribe subscriber topic with
          | Some err =>
              ListenForReply p start cmdMsg command =
                (inr (Wrap err "cannot subscribe to request/reply notifications topic"),
                 [CallSubscriberConstructor scParams;
                  CallGenerateReplyNotificationTopic tgParams;
                  derive; CallSubscribe topic; Cancel])
          | None =>
              fst (ListenForReply p start cmdMsg command) = inl spawned
              ∧ ¬ In Cancel (snd (ListenForReply p start cmdMsg command))
          end
      end
  end.
Proof.
  intros scParams tgParams derive.
  unfold ListenForReply. cbv [mbind mret M_bind M_ret bind ret emit].
  fold scParams. fold tgParams.
  destruct (SubscriberConstructor _ _) as [subscriber|err]; [|reflexivity].
  destruct (GenerateReplyNotificationTopic _ _) as [topic|err]; [|reflexivity].
  destruct (Subscribe subscriber topic) as [err|]; [reflexivity|].
  split; [reflexivity|]. simpl.
  intros [H|[H|[H|[H|[H|[H|[H|[]]]]]]]]; try discriminate.
  destruct (ListenForReplyTimeout _); discriminate.
Qed.

End Facts.
End backend_more_facts.

(** ** Building the backend *)

Module setup_facts.
Import errors message effects watermill cqrs_setup.

Section Facts.

Context {Command : Type}.
Variable JSONMarshaler : cqrs.PubSubRequestReplyMarshaler.

(** X8. A backend that [NewPubSubRequestReply] returns has everything its
    methods call: publisher, subscriber constructor and topic generator are
    the ones given, the marshaler is the one given or else the JSON
    marshaler, the logger is the one given or else the no-op logger, and
    timeout and hook are as given. *)
Theorem NewPubSubRequestReply_is_ready
    (c : PubSubRequestReplyConfig Command) (p : PubSubRequestReply Command) :
  NewPubSubRequestReply JSONMarshaler c = inl p ->
  ∃ publisher constructor generate,
    Publisher c = Some publisher
    ∧ SubscriberConstructor c = Some constructor
    ∧ GenerateReplyNotificationTopic c = Some generate
    ∧ ready p =
        Some {| cqrs.config :=
                  {| cqrs.Publisher := publisher;
                     cqrs.SubscriberConstructor := constructor;
                     cqrs.GenerateReplyNotificationTopic := generate;
                     cqrs.Marshaler := default JSONMarshaler (Marshaler c);
                     cqrs.ListenForReplyTimeout := ListenForReplyTimeout c;
                     cqrs.ModifyNotificationMessage := ModifyNotificationMessage c |} |}
    ∧ Logger (config p) = Some (default NopLogger (Logger c)).
Proof.
  unfold NewPubSubRequestReply, Validate, setDefaults, ready.
  destruct c as [pub sc gen m lg timeout hook]; simpl.
  destruct lg as [lg|], m as [m|], pub as [pub|], sc as [sc|], gen as [gen|];
    simpl; intros [= <-]; simpl; eauto 10.
Qed.

(** X9. [NewPubSubRequestReply] refuses exactly the configurations without
    publisher, subscriber constructor or topic generator, and names the
    first of these that is missing, in that order, wrapped as an invalid
    configuration; a missing logger or marshaler is never a reason to
    refuse. *)
Theorem NewPubSubRequestReply_names_first_missing
    (c : PubSubRequestReplyConfig Command) :
  match Publisher c, SubscriberConstructor c, GenerateReplyNotificationTopic c with
  | None, _, _ =>
      NewPubSubRequestReply JSONMarshaler c =
        inr (Wrap (New "publisher cannot be nil") "invalid config")
  | Some _, None, _ =>
      NewPubSubRequestReply JSONMarshaler c =
        inr (Wrap (New "subscriber constructor cannot be nil") "invalid config")
  | Some _, Some _, None =>
      NewPubSubRequestReply JSONMarshaler c =
        inr (Wrap (New "GenerateReplyNotificationTopic cannot be nil") "invalid config")
  | Some _, Some _, Some _ =>
      NewPubSubRequestReply JSONMarshaler c = inl {| config := setDefaults JSONMarshaler c |}
  end
  ∧ Validate (setDefaults JSONMarshaler c) = Validate c.
Proof.
  unfold NewPubSubRequestReply, Validate, setDefaults.
  destruct c as [pub sc gen m lg timeout hook]; simpl.
  destruct lg as [lg|], m as [m|], pub as [pub|], sc as [sc|], gen as [gen|];
    simpl; auto.
Qed.

End Facts.
End setup_facts.

(** ** The event group processor: configuration and groups *)

Module events_facts.
Import errors message effects watermill cqrs_events observe_events.

Section Facts.

Context {Event Router Subscriber : Type}.

(** X10. [Validate] of the event group processor configuration reports
    every missing option at once, not only the first: it returns nil
    exactly when marshaler, topic generator and subscriber constructor are
    all set, and otherwise an error that prints one line per missing
    option, in the order of the checks.  The constructor passes that
    report on behind its own prefix. *)
Theorem Validate_reports_every_missing_option
    (c : EventGroupProcessorConfig Event Subscriber) :
  match Validate c with
  | None =>
      missing c = []
      ∧ is_Some (Marshaler c)
      ∧ is_Some (GenerateHandlerGroupSubscribeTopic c)
      ∧ is_Some (GroupSubscriberConstructor c)
  | Some err =>
      missing c ≠ []
      ∧ stdErrors.Error err = String.concat stdErrors.newline (missing c)
      ∧ ∃ wrapped,
          NewEventGroupProcessorWithConfig c = inr wrapped
          ∧ stdErrors.Error wrapped =
              "invalid config EventProcessor: "
              +:+ String.concat stdErrors.newline (missing c)
  end.
Proof.
  unfold NewEventGroupProcessorWithConfig, Validate, setDefaults, missing.
  destruct c as [gen cons hook ack m lg]; simpl.
  destruct lg as [lg|], m as [m|], gen as [gen|], cons as [cons|]; simpl;
    repeat split; eauto; try discriminate.
Qed.

Lemma new_processor_has_collaborators
    (c : EventGroupProcessorConfig Event Subscriber)
    (p : EventGroupProcessor Event Subscriber) :
  NewEventGroupProcessorWithConfig c = inl p ->
  groupEventHandlers p = ∅
  ∧ is_Some (Marshaler (config p))
  ∧ is_Some (Logger (config p))
  ∧ is_Some (GroupSubscriberConstructor (config p))
  ∧ is_Some (GenerateHandlerGroupSubscribeTopic (config p)).
Proof.
  unfold NewEventGroupProcessorWithConfig. intros Hnew.
  destruct (Validate (setDefaults c)) eqn:Hv; [discriminate|].
  injection Hnew as <-. simpl. split; [reflexivity|].
  revert Hv. unfold Validate, setDefaults.
  destruct c as [gen cons hook ack m lg]; simpl.
  destruct lg as [lg|], m as [m|], gen as [gen|], cons as [cons|]; simpl;
    intros [=]; eauto.
Qed.

(** X11. A processor that [NewEventGroupProcessorWithConfig] returns has
    no groups yet, has marshaler, topic generator and subscriber
    constructor as given, and has a logger: the one given or else the no-op
    logger.  The other options are as given. *)
Theorem NewEventGroupProcessorWithConfig_starts_empty
    (c : EventGroupProcessorConfig Event Subscriber)
    (p : EventGroupProcessor Event Subscriber) :
  NewEventGroupProcessorWithConfig c = inl p ->
  groupEventHandlers p = ∅
  ∧ (∃ marshaler generate construct,
       Marshaler c = Some marshaler ∧ Marshaler (config p) = Some marshaler
       ∧ GenerateHandlerGroupSubscribeTopic c = Some generate
       ∧ GenerateHandlerGroupSubscribeTopic (config p) = Some generate
       ∧ GroupSubscriberConstructor c = Some construct
       ∧ GroupSubscriberConstructor (config p) = Some construct)
  ∧ Logger (config p) = Some (default NopLogger (Logger c))
  ∧ OnGroupHandle (config p) = OnGroupHandle c
  ∧ AckOnUnknownEvent (config p) = AckOnUnknownEvent c.
Proof.
  unfold NewEventGroupProcessorWithConfig, Validate, setDefaults.
  destruct c as [gen cons hook ack m lg]; simpl.
  destruct lg as [lg|], m as [m|], gen as [gen|], cons as [cons|]; simpl;
    intros [= <-]; simpl; eauto 15.
Qed.

(** X12. [AddHandlersGroup] succeeds exactly when it is given at least one
    handler and the name is not taken.  On success the group can be looked
    up under its name and every other group is as before; on failure the
    processor is unchanged, so a second registration under a taken name
    does not replace the first.  The empty list is refused before the
    name is looked at. *)
Theorem AddHandlersGroup_registers_once
    (p : EventGroupProcessor Event Subscriber) (handlerName : string)
    (handlers : list (GroupEventHandler Event)) :
  let p' := fst (AddHandlersGroup p handlerName handlers) in
  let err := snd (AddHandlersGroup p handlerName handlers) in
  (err = None ↔ handlers ≠ [] ∧ groupEventHandlers p !! handlerName = None)
  ∧ (err = None ->
     groupEventHandlers p' !! handlerName = Some handlers
     ∧ (∀ other, other ≠ handlerName ->
          groupEventHandlers p' !! other = groupEventHandlers p !! other)
     ∧ config p' = config p)
  ∧ (err ≠ None -> p' = p)
  ∧ (handlers = [] -> err = Some (New "no handlers provided"))
  ∧ (handlers ≠ [] -> is_Some (groupEventHandlers p !! handlerName) ->
     err = Some (errorString ("event handler group '" +:+ handlerName
                              +:+ "' already exists"))).
Proof.
  intros p' err. subst p' err. unfold AddHandlersGroup.
  destruct handlers as [|h hs]; simpl.
  - split_and!; try done.
    + split; [discriminate | intros [? _]; done].
  - destruct (groupEventHandlers p !! handlerName) as [old|] eqn:Hold; simpl.
    + split_and!; try done.
      split; [discriminate | intros [_ ?]; done].
    + split_and!; try done.
      intros _. split_and!; [apply lookup_insert_eq | | reflexivity].
      intros other Hne. apply lookup_insert_ne. congruence.
Qed.

Lemma addAll_lookup (calls : list (string * list (GroupEventHandler Event))) :
  ∀ (p : EventGroupProcessor Event Subscriber) (name : string),
    groupEventHandlers (addAll p calls) !! name =
      match groupEventHandlers p !! name with
      | Some handlers => Some handlers
      | None => first_registration name calls
      end
    ∧ config (addAll p calls) = config p.
Proof.
  induction calls as [|[n hs] calls IH]; intros p name; simpl.
  - destruct (groupEventHandlers p !! name); auto.
  - destruct (IH (fst (AddHandlersGroup p n hs)) name) as [-> ->].
    unfold first_registration. rewrite filter_cons. simpl.
    unfold AddHandlersGroup.
    destruct hs as [|h hs]; simpl.
    + destruct (decide _) as [[_ Hne]|_]; [done|]. auto.
    + destruct (groupEventHandlers p !! n) as [old|] eqn:Hold; simpl.
      * destruct (decide (n = name)) as [->|Hne].
        -- rewrite Hold. auto.
        -- destruct (decide _) as [[? _]|_]; [done|]. auto.
      * destruct (decide (n = name)) as [->|Hne].
        -- rewrite lookup_insert_eq, Hold.
           destruct (decide _) as [_|Hn]; [auto|]. exfalso. apply Hn. done.
        -- rewrite lookup_insert_ne by done.
           destruct (decide _) as [[? _]|_]; [done|]. auto.
Qed.

(** X13. The first registration wins.  After any series of
    [AddHandlersGroup] calls on a fresh processor, whatever each call
    returned, a name holds the handlers of the first call that named it and
    brought handlers.  So no group is empty, later calls under the same name
    have changed nothing, and the configuration is untouched. *)
Theorem first_registration_wins
    (c : EventGroupProcessorConfig Event Subscriber)
    (p : EventGroupProcessor Event Subscriber)
    (calls : list (string * list (GroupEventHandler Event))) (name : string) :
  NewEventGroupProcessorWithConfig c = inl p ->
  groupEventHandlers (addAll p calls) !! name = first_registration name calls
  ∧ (∀ handlers, groupEventHandlers (addAll p calls) !! name = Some handlers ->
       handlers ≠ [] ∧ (name, handlers) ∈ calls)
  ∧ config (addAll p calls) = config p.
Proof.
  intros Hnew.
  assert (Hempty : groupEventHandlers p = ∅).
  { unfold NewEventGroupProcessorWithConfig in Hnew.
    destruct (Validate _); [discriminate|]. injection Hnew as <-. reflexivity. }
  destruct (addAll_lookup calls p name) as [Hl Hc].
  rewrite Hempty, lookup_empty in Hl.
  split_and!; [exact Hl | | exact Hc].
  intros handlers. rewrite Hl. unfold first_registration.
  destruct (head _) as [[n hs]|] eqn:Hhead; [|discriminate].
  simpl. intros [= ->].
  apply head_Some_elem_of in Hhead.
  apply list_elem_of_filter in Hhead. simpl in Hhead.
  destruct Hhead as [[-> Hne] Hin]. auto.
Qed.

End Facts.
End events_facts.

(** ** The event group processor: dispatch and routing *)

Module dispatch_facts.
Import errors message effects watermill cqrs_events observe_events.

Section Facts.

Context {Event Router Subscriber : Type}.
Variable p : EventGroupProcessor Event Subscriber.
Variables (groupName : string) (logger : LoggerAdapter).
Variables (marshaler : CommandEventMarshaler Event) (msg : Message).

Lemma handled_by_app (t1 t2 : list (Effect Event Router Subscriber)) :
  handled_by (t1 ++ t2) = handled_by t1 ++ handled_by t2.
Proof. apply omap_app. Qed.

Lemma unmarshaled_app (t1 t2 : list (Effect Event Router Subscriber)) :
  unmarshaled (t1 ++ t2) = unmarshaled t1 ++ unmarshaled t2.
Proof. apply omap_app. Qed.

(** Handlers that do not expect the event of the message are passed over:
    they leave one trace line each and nothing else. *)
Lemma rangeHandlers_passes_over (before rest : list (GroupEventHandler Event)) :
  Forall (fun h => ¬ expects marshaler msg h) before ->
  ∃ lines : list (Effect Event Router Subscriber),
    handled_by lines = [] ∧ unmarshaled lines = []
    ∧ length lines = length before
    ∧ rangeHandlers (Router := Router) p groupName logger marshaler msg
        (NameFromMessage marshaler msg) (before ++ rest)
      = (fst (rangeHandlers (Router := Router) p groupName logger marshaler msg
                (NameFromMessage marshaler msg) rest),
         lines ++ snd (rangeHandlers (Router := Router) p groupName logger marshaler msg
                         (NameFromMessage marshaler msg) rest)).
Proof.
  induction 1 as [|h before Hh _ IH]; simpl.
  - exists []. split_and!; try reflexivity.
    destruct (rangeHandlers _ _ _ _ _ _ _); reflexivity.
  - destruct IH as (lines & H1 & H2 & H3 & ->).
    unfold expects in Hh.
    destruct (decide _) as [_|Heq];
      [|exfalso; apply Hh; symmetry; apply dec_stable; exact Heq].
    exists (Trace logger "Received different event type than expected, ignoring"
              {[ "message_uuid" := UUID msg;
                 "expected_event_type" := Name marshaler (NewEvent h);
                 "received_event_type" := NameFromMessage marshaler msg ]}
            :: lines).
    cbv [mbind M_bind bind emit]. simpl.
    rewrite H1, H2, H3. split_and!; reflexivity.
Qed.

(** X14. Of the handlers of a group, the first that expects the event of
    the message is the only one that runs.  Handlers before it are passed
    over; handlers after it are not looked at, whether or not they expect
    the same event.  The event is unmarshaled once, into a fresh event of
    that handler; the handler runs on the result, through [OnGroupHandle]
    when that is configured, and its error or nil is what the handler
    function returns.  When unmarshaling fails, no handler runs and the
    marshaler's error is returned as it is. *)
Theorem dispatch_runs_the_first_expecting_handler
    (before after : list (GroupEventHandler Event)) (handler : GroupEventHandler Event)
    (handlerFunc : Message -> M (Effect Event Router Subscriber) Outcome) :
  Marshaler (config p) = Some marshaler ->
  routerHandlerGroupFunc p (before ++ handler :: after) groupName logger
    = inl handlerFunc ->
  Forall (fun h => ¬ expects marshaler msg h) before ->
  expects marshaler msg handler ->
  unmarshaled (snd (handlerFunc msg)) = [NewEvent handler]
  ∧ match Unmarshal marshaler msg (NewEvent handler) with
    | inl event =>
        let params :=
          {| GroupName := groupName; Handler := handler;
             EventName := NameFromMessage marshaler msg; Event_ := event;
             Message_ := msg |} in
        fst (handlerFunc msg) =
          Returns match OnGroupHandle (config p) with
                  | Some handle => handle params
                  | None => Handle handler (Context_ msg) event
                  end
        ∧ handled_by (snd (handlerFunc msg)) = [handler]
    | inr err =>
        fst (handlerFunc msg) = Returns (Some err)
        ∧ handled_by (snd (handlerFunc msg)) = []
    end.
Proof.
  intros Hm [= <-] Hbefore Hexp. rewrite Hm.
  destruct (rangeHandlers_passes_over before (handler :: after) Hbefore)
    as (lines & H1 & H2 & _ & Hrange).
  cbv [mbind mret M_bind M_ret bind ret]. rewrite Hrange. clear Hrange.
  cbn [rangeHandlers]. unfold expects in Hexp.
  destruct (decide _) as [Hne|_]; [exfalso; apply Hne; symmetry; exact Hexp|].
  cbv [mbind mret M_bind M_ret bind ret emit].
  destruct (Unmarshal marshaler msg (NewEvent handler)) as [event|err].
  - destruct (OnGroupHandle (config p)) as [handle|].
    + destruct (handle _) as [err|]; simpl;
        rewrite ?handled_by_app, ?unmarshaled_app, H1, H2; auto.
    + destruct (Handle handler _ _) as [err|]; simpl;
        rewrite ?handled_by_app, ?unmarshaled_app, H1, H2; auto.
  - simpl. rewrite ?handled_by_app, ?unmarshaled_app, H1, H2. auto.
Qed.

(** X15. A message whose event no handler of the group expects reaches no
    handler and is not unmarshaled.  With [AckOnUnknownEvent] the handler
    function returns nil, so the message is acknowledged; without it the
    function returns an error that names the event. *)
Theorem dispatch_of_unknown_event
    (handlers : list (GroupEventHandler Event))
    (handlerFunc : Message -> M (Effect Event Router Subscriber) Outcome) :
  Marshaler (config p) = Some marshaler ->
  routerHandlerGroupFunc p handlers groupName logger = inl handlerFunc ->
  Forall (fun h => ¬ expects marshaler msg h) handlers ->
  fst (handlerFunc msg) =
    Returns (if AckOnUnknownEvent (config p) then None
             else Some (errorString ("no handler found for event "
                                     +:+ NameFromMessage marshaler msg)))
  ∧ handled_by (snd (handlerFunc msg)) = []
  ∧ unmarshaled (snd (handlerFunc msg)) = [].
Proof.
  intros Hm [= <-] Hall. rewrite Hm.
  destruct (rangeHandlers_passes_over handlers [] Hall) as (lines & H1 & H2 & _ & Hrange).
  rewrite app_nil_r in Hrange.
  cbv [mbind mret M_bind M_ret bind ret]. rewrite Hrange. clear Hrange.
  cbn [rangeHandlers].
  destruct (AckOnUnknownEvent (config p)); simpl;
    rewrite ?handled_by_app, ?unmarshaled_app, H1, H2; auto.
Qed.

Lemma rangeHandlers_at_most_one (m : CommandEventMarshaler Event)
    (handlers : list (GroupEventHandler Event)) (name : string) :
  let t := snd (rangeHandlers (Router := Router) p groupName logger m msg
                  name handlers) in
  (length (handled_by t) ≤ 1)%nat
  ∧ (length (unmarshaled t) ≤ 1)%nat
  ∧ (handled_by t ≠ [] -> unmarshaled t ≠ [])
  ∧ (is_Some (OnGroupHandle (config p)) -> handled_directly t = [])
  ∧ (OnGroupHandle (config p) = None -> handled_directly t = handled_by t).
Proof.
  induction handlers as [|h handlers IH]; simpl.
  - destruct (negb _); simpl; split_and!; auto; try lia; done.
  - destruct (decide _) as [Hne|_].
    + cbv [mbind M_bind bind emit].
      destruct (rangeHandlers _ _ _ _ _ _ _) as [r t]. simpl in *. exact IH.
    + cbv [mbind mret M_bind M_ret bind ret emit].
      destruct (Unmarshal m msg (NewEvent h)) as [event|err]; simpl.
      * destruct (OnGroupHandle (config p)) as [handle|]; simpl.
        -- destruct (handle _); simpl; split_and!; auto; try lia; try done.
        -- destruct (Handle h _ _); simpl; split_and!; auto; try lia; try done;
             intros [? ?]; discriminate.
      * split_and!; auto; try lia; done.
Qed.

(** X16. Whatever the handlers of the group and the message, the handler
    function runs at most one handler and unmarshals at most once, and runs
    no handler without having unmarshaled.  When [OnGroupHandle] is
    configured the processor never calls [Handle] of a handler itself:
    the hook stands in for it; when it is not, every handler that runs is
    called directly. *)
Theorem dispatch_runs_at_most_one_handler
    (handlers : list (GroupEventHandler Event))
    (handlerFunc : Message -> M (Effect Event Router Subscriber) Outcome) :
  routerHandlerGroupFunc p handlers groupName logger = inl handlerFunc ->
  let t := snd (handlerFunc msg) in
  (length (handled_by t) ≤ 1)%nat
  ∧ (length (unmarshaled t) ≤ 1)%nat
  ∧ (handled_by t ≠ [] -> unmarshaled t ≠ [])
  ∧ (is_Some (OnGroupHandle (config p)) -> handled_directly t = [])
  ∧ (OnGroupHandle (config p) = None -> handled_directly t = handled_by t).
Proof.
  intros [= <-]. simpl.
  destruct (Marshaler (config p)) as [m|].
  - cbv [mbind mret M_bind M_ret bind ret].
    pose proof (rangeHandlers_at_most_one m handlers (NameFromMessage m msg)) as H.
    destruct (rangeHandlers _ _ _ _ _ _ _) as [r t]. simpl in *.
    rewrite app_nil_r. exact H.
  - simpl. split_and!; auto; try lia; done.
Qed.

End Facts.
End dispatch_facts.

(** ** The event group processor: adding the groups to the router *)

Module router_facts.
Import errors message effects watermill cqrs_events observe_events.

Section Facts.

Context {Event Router Subscriber : Type}.
Variable validateEvent : Event -> option error.
Variable addHandlerToRouter :
  LoggerAdapter -> Router -> string -> string
  -> (Message -> M (Effect Event Router Subscriber) Outcome)
  -> Subscriber -> option error.

Lemma constructed_app (t1 t2 : list (Effect Event Router Subscriber)) :
  constructed (t1 ++ t2) = constructed t1 ++ constructed t2.
Proof. apply omap_app. Qed.

Lemma added_app (t1 t2 : list (Effect Event Router Subscriber)) :
  added (t1 ++ t2) = added t1 ++ added t2.
Proof. apply omap_app. Qed.

Lemma validateHandlers_quiet (groupName : string)
    (handlers : list (GroupEventHandler Event)) :
  ∀ i, constructed (snd (validateHandlers (Router := Router) (Subscriber := Subscriber)
                           validateEvent groupName i handlers)) = []
       ∧ added (snd (validateHandlers (Router := Router) (Subscriber := Subscriber)
                       validateEvent groupName i handlers)) = [].
Proof.
  induction handlers as [|h handlers IH]; intros i; simpl; [auto|].
  cbv [mbind M_bind bind emit ret].
  destruct (validateEvent (NewEvent h)); simpl; [auto|].
  specialize (IH (S i)). destruct (validateHandlers _ _ _ _) as [r t]. exact IH.
Qed.

Lemma rangeGroups_success (p : EventGroupProcessor Event Subscriber) (r : Router)
    (groupNames : list string) :
  ∀ effs,
    rangeGroups validateEvent addHandlerToRouter p r groupNames = (Returns None, effs) ->
    constructed effs =
      (fun g => {| sp_EventGroupName := g;
                   sp_EventGroupHandlers := default [] (groupEventHandlers p !! g) |})
      <$> groupNames
    ∧ added effs = groupNames.
Proof.
  induction groupNames as [|g groupNames IH]; intros effs; simpl.
  - intros [= <-]. auto.
  - cbv [mbind mret M_bind M_ret bind ret emit].
    pose proof (validateHandlers_quiet g (default [] (groupEventHandlers p !! g)) 0)
      as [Hvc Hva].
    destruct (validateHandlers _ _ _ _) as [[err|] tv]; simpl in *; [discriminate|].
    destruct (GenerateHandlerGroupSubscribeTopic (config p)) as [generate|];
      simpl; [|discriminate].
    destruct (generate _) as [topicName|err]; simpl; [|discriminate].
    destruct (Logger (config p)) as [configLogger|]; simpl; [|discriminate].
    destruct (GroupSubscriberConstructor (config p)) as [construct|];
      simpl; [|discriminate].
    destruct (construct _) as [subscriber|err]; simpl; [|discriminate].
    destruct (addHandlerToRouter _ _ _ _ _ _) as [err|]; simpl; [discriminate|].
    destruct (rangeGroups _ _ _ _ _) as [out t] eqn:Hrest.
    intros [= -> <-]. destruct (IH _ eq_refl) as [Hc Ha].
    rewrite !constructed_app, !added_app, Hvc, Hva. simpl.
    rewrite Hc, Ha. auto.
Qed.

(** X17. When [AddHandlersToRouter] returns nil, every group of the
    processor got exactly one subscriber and was added to the router
    exactly once, in whatever order the groups were visited; the subscriber
    of a group was constructed for the handlers registered under its
    name. *)
Theorem AddHandlersToRouter_one_subscriber_per_group
    (p : EventGroupProcessor Event Subscriber) (r : Router)
    (groupNames : list string) (effs : list (Effect Event Router Subscriber)) :
  groupNames ≡ₚ (map_to_list (groupEventHandlers p)).*1 ->
  AddHandlersToRouter validateEvent addHandlerToRouter p r groupNames
    = (Returns None, effs) ->
  added effs = groupNames
  ∧ sp_EventGroupName <$> constructed effs = groupNames
  ∧ added effs ≡ₚ (map_to_list (groupEventHandlers p)).*1
  ∧ length (constructed effs) = size (groupEventHandlers p)
  ∧ ∀ params, params ∈ constructed effs ->
      groupEventHandlers p !! sp_EventGroupName params
      = Some (sp_EventGroupHandlers params).
Proof.
  intros Hperm. unfold AddHandlersToRouter.
  destruct (_ =? _)%nat; [discriminate|]. intros Hrun.
  destruct (rangeGroups_success p r groupNames effs Hrun) as [Hc Ha].
  split_and!.
  - exact Ha.
  - rewrite Hc, <- list_fmap_compose. simpl. apply list_fmap_id.
  - rewrite Ha. exact Hperm.
  - rewrite Hc, length_fmap, Hperm, length_fmap. apply length_map_to_list.
  - intros params. rewrite Hc. intros Hin. apply list_elem_of_fmap in Hin.
    destruct Hin as (g & -> & Hg). simpl.
    rewrite Hperm in Hg. apply list_elem_of_fmap in Hg.
    destruct Hg as ([g' hs] & -> & Hin). apply elem_of_map_to_list in Hin.
    simpl. rewrite Hin. reflexivity.
Qed.

Lemma rangeGroups_no_panic (p : EventGroupProcessor Event Subscriber) (r : Router)
    (groupNames : list string) :
  is_Some (Logger (config p)) ->
  is_Some (GroupSubscriberConstructor (config p)) ->
  fst (rangeGroups validateEvent addHandlerToRouter p r groupNames) ≠ Panics.
Proof.
  intros [lg Hlg] [construct Hc].
  induction groupNames as [|g groupNames IH]; simpl; [discriminate|].
  cbv [mbind mret M_bind M_ret bind ret emit].
  destruct (validateHandlers _ _ _ _) as [[err|] tv]; simpl; [discriminate|].
  destruct (GenerateHandlerGroupSubscribeTopic (config p)) as [generate|];
    simpl; [|discriminate].
  destruct (generate _) as [topicName|err]; simpl; [|discriminate].
  rewrite Hlg, Hc. simpl.
  destruct (construct _) as [subscriber|err]; simpl; [|discriminate].
  destruct (addHandlerToRouter _ _ _ _ _ _) as [err|]; simpl; [discriminate|].
  destruct (rangeGroups _ _ _ _ _) as [out t]. exact IH.
Qed.

(** X18. [AddHandlersGroup] leaves the configuration alone, so a processor
    built by [NewEventGroupProcessorWithConfig] still has its marshaler,
    logger, topic generator and subscriber constructor after any series of
    [AddHandlersGroup] calls.  With handlers that exist (a nil handler is
    not a value of the handler type here), neither [AddHandlersToRouter],
    in whatever order it visits the groups, nor the handler function of any
    group on any message then calls an option of the configuration that is
    nil.  Fresh from the constructor, without groups, the processor is
    refused by [AddHandlersToRouter] before anything is touched. *)
Theorem constructed_processor_calls_no_nil_option
    (c : EventGroupProcessorConfig Event Subscriber)
    (p0 : EventGroupProcessor Event Subscriber)
    (calls : list (string * list (GroupEventHandler Event)))
    (r : Router) (groupNames : list string)
    (handlers : list (GroupEventHandler Event)) (groupName : string)
    (logger : LoggerAdapter) (msg : Message) :
  NewEventGroupProcessorWithConfig c = inl p0 ->
  let p := addAll p0 calls in
  config p = config p0
  ∧ is_Some (Marshaler (config p))
  ∧ is_Some (Logger (config p))
  ∧ is_Some (GenerateHandlerGroupSubscribeTopic (config p))
  ∧ is_Some (GroupSubscriberConstructor (config p))
  ∧ fst (AddHandlersToRouter validateEvent addHandlerToRouter p r groupNames) ≠ Panics
  ∧ (∃ handlerFunc,
       routerHandlerGroupFunc (Router := Router) p handlers groupName logger
         = inl handlerFunc
       ∧ fst (handlerFunc msg) ≠ Panics)
  ∧ AddHandlersToRouter validateEvent addHandlerToRouter p0 r groupNames =
      (Returns (Some (New "EventProcessor has no handlers, did you call AddHandler?")),
       []).
Proof.
  intros Hnew p.
  destruct (events_facts.new_processor_has_collaborators c p0 Hnew)
    as (Hempty & [m Hm] & Hlg & Hc & Hgen).
  assert (Hcfg : config p = config p0).
  { subst p. clear. revert p0.
    induction calls as [|[n hs] calls IH]; intros p0; simpl; [reflexivity|].
    rewrite IH. unfold AddHandlersGroup.
    destruct (_ =? _)%nat; [reflexivity|].
    destruct (_ !! _); reflexivity. }
  split_and!.
  - exact Hcfg.
  - rewrite Hcfg. eauto.
  - rewrite Hcfg. exact Hlg.
  - rewrite Hcfg. exact Hgen.
  - rewrite Hcfg. exact Hc.
  - unfold AddHandlersToRouter. destruct (_ =? _)%nat; [discriminate|].
    apply rangeGroups_no_panic; rewrite Hcfg; assumption.
  - eexists. split; [reflexivity|]. simpl. rewrite Hcfg, Hm.
    cbv [mbind mret M_bind M_ret bind ret].
    destruct (rangeHandlers _ _ _ _ _ _ _). discriminate.
  - unfold AddHandlersToRouter. rewrite Hempty, map_size_empty. reflexivity.
Qed.

End Facts.
End router_facts.

(** ** The properties above on concrete collaborators *)

Module more_witnesses.
Import errors message effects watermill.
Import cqrs observe observe_more fixtures fixtures_more.

Lemma every_notification_is_acked_once_witness :
  ∃ l, run backend 0 command spawned
         [Select (NotifyMsg foreign); Select (NotifyMsg failed); Receive;
          Select (NotifyMsg garbled)] = Some l
       ∧ acks (trace l) = [foreign; failed; garbled]
       ∧ unmarshals (trace l) = [failed; garbled].
Proof.
  eexists. split; [reflexivity|].
  apply (listener_more_facts.every_notification_is_acked_once backend 0 command
           [Select (NotifyMsg foreign); Select (NotifyMsg failed); Receive;
            Select (NotifyMsg garbled)] _ eq_refl).
Defined.

Lemma replies_belong_to_the_command_witness :
  let reply := {| ReplyMsg := Some failed;
                  Err := Some (CommandHandlerError (errorString "insufficient funds")) |} in
  ∃ l, run backend 0 command spawned
         [Select (NotifyMsg foreign); Select (NotifyMsg failed)] = Some l
       ∧ reply ∈ sent (trace l)
       ∧ ((∃ now cause, reply = timeoutReply 0 now cause)
          ∨ (∃ notifyMsg notification,
               ReplyMsg reply = Some notifyMsg
               ∧ notifyMsg ∈ notifications
                               [Select (NotifyMsg foreign); Select (NotifyMsg failed)]
               ∧ Get (Metadata notifyMsg) handledCommandUuidMetadataKey = UUID command
               ∧ Unmarshal (Marshaler (config backend)) notifyMsg = inl notification
               ∧ Err reply = if HasError notification
                             then Some (CommandHandlerError
                                          (errorString (Error notification)))
                             else None)).
Proof.
  intros reply. eexists. split; [reflexivity|].
  assert (Hin : reply ∈ sent (trace (select backend 0 command (NotifyMsg failed)
                                       (select backend 0 command (NotifyMsg foreign)
                                          spawned)))).
  { vm_compute. constructor. }
  split; [exact Hin|].
  exact (listener_more_facts.replies_belong_to_the_command backend 0 command
           [Select (NotifyMsg foreign); Select (NotifyMsg failed)] _ reply eq_refl Hin).
Defined.

Lemma timeout_reply_is_final_witness :
  ∃ l others tail,
    run backend 0 command spawned
      [Select (NotifyMsg succeeded); Select (CtxDone 60 Canceled)] = Some l
    ∧ sent (trace l) ++ pending l = others ++ tail
    ∧ Forall (fun r => is_timeout r = false) others
    ∧ (tail = []
       ∨ ∃ reply, tail = [reply] ∧ is_timeout reply = true
                  ∧ ∀ c, step backend 0 command l (Select c) = None).
Proof.
  destruct (listener_more_facts.timeout_reply_is_final backend 0 command
              [Select (NotifyMsg succeeded); Select (CtxDone 60 Canceled)] _ eq_refl)
    as (others & tail & H1 & H2 & _ & H4).
  eexists _, others, tail. split; [reflexivity|]. auto.
Defined.



Lemma ModifyCommandMessageBeforePublish_marks_only_witness :
  let marked := fst (ModifyCommandMessageBeforePublish backend plainCommand tt) in
  UUID marked = "cmd-2"
  ∧ Get (Metadata marked) notifyWhenExecutedMetadataKey = "1"
  ∧ ModifyCommandMessageBeforePublish backend marked tt = (marked, None).
Proof.
  intros marked.
  destruct (backend_more_facts.ModifyCommandMessageBeforePublish_marks_only backend
              plainCommand tt tt None) as (_ & H2 & _ & _ & _ & H6 & _).
  split; [exact H2|]. split; [reflexivity | exact H6].
Defined.

Lemma NewPubSubRequestReply_is_ready_witness :
  ∃ p backend,
    cqrs_setup.NewPubSubRequestReply flagMarshaler minimal = inl p
    ∧ cqrs_setup.ready p = Some backend
    ∧ Marshaler (config backend) = flagMarshaler
    ∧ cqrs_setup.Logger (cqrs_setup.config p) = Some NopLogger.
Proof.
  destruct (setup_facts.NewPubSubRequestReply_is_ready flagMarshaler minimal _ eq_refl)
    as (publisher & constructor & generate & _ & _ & _ & Hready & Hlog).
  eexists _, _. split; [reflexivity|]. split; [exact Hready|].
  split; [reflexivity | exact Hlog].
Defined.

Lemma NewEventGroupProcessorWithConfig_starts_empty_witness :
  cqrs_events.NewEventGroupProcessorWithConfig eventsConfig = inl fresh
  ∧ cqrs_events.groupEventHandlers fresh = ∅
  ∧ cqrs_events.Logger (cqrs_events.config fresh) = Some NopLogger.
Proof.
  destruct (events_facts.NewEventGroupProcessorWithConfig_starts_empty
              eventsConfig fresh eq_refl) as (H1 & _ & H3 & _).
  split; [reflexivity|]. split; [exact H1 | exact H3].
Defined.

Lemma AddHandlersGroup_registers_once_witness :
  let p' := fst (cqrs_events.AddHandlersGroup fresh "orders" [onPlaced]) in
  cqrs_events.groupEventHandlers p' !! "orders" = Some [onPlaced]
  ∧ snd (cqrs_events.AddHandlersGroup p' "orders" [onPaid])
    = Some (errorString "event handler group 'orders' already exists")
  ∧ fst (cqrs_events.AddHandlersGroup p' "orders" [onPaid]) = p'.
Proof.
  intros p'.
  destruct (events_facts.AddHandlersGroup_registers_once fresh "orders" [onPlaced])
    as (_ & Hok & _).
  destruct (events_facts.AddHandlersGroup_registers_once p' "orders" [onPaid])
    as (_ & _ & Hsame & _ & Htaken).
  split; [apply Hok; reflexivity|].
  split; [apply Htaken; [discriminate | eexists; reflexivity]|].
  apply Hsame. discriminate.
Defined.

Lemma first_registration_wins_witness :
  cqrs_events.groupEventHandlers (observe_events.addAll fresh registrations) !! "orders"
    = Some [onPlaced; onPaid; onPaidAgain]
  ∧ cqrs_events.groupEventHandlers (observe_events.addAll fresh registrations) !! "audit"
    = None.
Proof.
  split.
  - apply (events_facts.first_registration_wins eventsConfig fresh registrations
             "orders" eq_refl).
  - apply (events_facts.first_registration_wins eventsConfig fresh registrations
             "audit" eq_refl).
Defined.

Lemma dispatch_runs_the_first_expecting_handler_witness :
  ∃ handlerFunc,
    cqrs_events.routerHandlerGroupFunc (Router := unit) fresh
      ([onPlaced] ++ onPaid :: [onPaidAgain]) "orders" NopLogger = inl handlerFunc
    ∧ fst (handlerFunc paid) = cqrs_events.Returns None
    ∧ observe_events.handled_by (snd (handlerFunc paid)) = [onPaid].
Proof.
  eexists. split; [reflexivity|].
  destruct (dispatch_facts.dispatch_runs_the_first_expecting_handler
              (Router := unit) fresh "orders" NopLogger namedMarshaler paid
              [onPlaced] [onPaidAgain] onPaid _ eq_refl eq_refl)
    as [_ H].
  - repeat constructor. vm_compute. discriminate.
  - reflexivity.
  - exact H.
Defined.

Lemma dispatch_of_unknown_event_witness :
  ∃ handlerFunc,
    cqrs_events.routerHandlerGroupFunc (Router := unit) fresh
      [onPlaced; onPaid] "orders" NopLogger = inl handlerFunc
    ∧ fst (handlerFunc cancelled)
      = cqrs_events.Returns
          (Some (errorString "no handler found for event OrderCancelled"))
    ∧ observe_events.handled_by (snd (handlerFunc cancelled)) = [].
Proof.
  eexists. split; [reflexivity|].
  destruct (dispatch_facts.dispatch_of_unknown_event
              (Router := unit) fresh "orders" NopLogger namedMarshaler cancelled
              [onPlaced; onPaid] _ eq_refl eq_refl)
    as (H1 & H2 & _).
  - repeat constructor; vm_compute; discriminate.
  - split; [exact H1 | exact H2].
Defined.

Lemma dispatch_runs_at_most_one_handler_witness :
  ∃ handlerFunc,
    cqrs_events.routerHandlerGroupFunc (Router := unit) fresh
      [onPaid; onPaidAgain] "orders" NopLogger = inl handlerFunc
    ∧ (length (observe_events.handled_by (snd (handlerFunc paid))) ≤ 1)%nat
    ∧ observe_events.handled_directly (snd (handlerFunc paid))
      = observe_events.handled_by (snd (handlerFunc paid)).
Proof.
  eexists. split; [reflexivity|].
  destruct (dispatch_facts.dispatch_runs_at_most_one_handler
              (Router := unit) fresh "orders" NopLogger paid
              [onPaid; onPaidAgain] _ eq_refl)
    as (H1 & _ & _ & _ & H5).
  split; [exact H1 | exact (H5 eq_refl)].
Defined.

Lemma AddHandlersToRouter_one_subscriber_per_group_witness :
  let p := observe_events.addAll fresh registrations in
  let result :=
    cqrs_events.AddHandlersToRouter (fun _ => None) (fun _ _ _ _ _ _ => None)
      p tt ["orders"] in
  fst result = cqrs_events.Returns None
  ∧ observe_events.added (snd result) = ["orders"]
  ∧ length (observe_events.constructed (snd result)) = 1%nat.
Proof.
  intros p result.
  assert (Hperm : ["orders"] ≡ₚ (map_to_list (cqrs_events.groupEventHandlers p)).*1)
    by (vm_compute; reflexivity).
  assert (Hrun : result = (cqrs_events.Returns None, snd result))
    by (vm_compute; reflexivity).
  destruct (router_facts.AddHandlersToRouter_one_subscriber_per_group
              (fun _ => None) (fun _ _ _ _ _ _ => None) p tt ["orders"] (snd result)
              Hperm Hrun) as (H1 & _ & _ & H4 & _).
  split; [reflexivity|]. split; [exact H1|]. rewrite H4. reflexivity.
Defined.

Lemma constructed_processor_calls_no_nil_option_witness :
  cqrs_events.NewEventGroupProcessorWithConfig eventsConfig = inl fresh
  ∧ is_Some (cqrs_events.Marshaler
               (cqrs_events.config (observe_events.addAll fresh registrations)))
  ∧ fst (cqrs_events.AddHandlersToRouter (fun _ => None) (fun _ _ _ _ _ _ => None)
           (observe_events.addAll fresh registrations) tt ["orders"])
    ≠ cqrs_events.Panics
  ∧ cqrs_events.AddHandlersToRouter (Router := unit) (fun _ => None)
      (fun _ _ _ _ _ _ => None) fresh tt []
    = (cqrs_events.Returns
         (Some (New "EventProcessor has no handlers, did you call AddHandler?")), []).
Proof.
  destruct (router_facts.constructed_processor_calls_no_nil_option
              (fun _ => None) (fun _ _ _ _ _ _ => None)
              eventsConfig fresh registrations tt ["orders"] [onPaid] "orders"
              NopLogger paid eq_refl) as (_ & H2 & _ & _ & _ & H6 & _ & _).
  destruct (router_facts.constructed_processor_calls_no_nil_option
              (fun _ => None) (fun _ _ _ _ _ _ => None)
              eventsConfig fresh registrations tt [] [onPaid] "orders"
              NopLogger paid eq_refl) as (_ & _ & _ & _ & _ & _ & _ & H8).
  split; [reflexivity|]. split; [exact H2|]. split; [exact H6 | exact H8].
Defined.

End more_witnesses.
